(** * Bella: the response policy of [core.js] and the WAV encoder of the
      page script, embedded in Rocq.

    - [JSString]: the string primitives the code relies on ([includes],
      [replace] with a string pattern, [trim], [length]).
    - [Core]: class [BellaAI] of [core.js]: [think], [thinkWithCloudAPI],
      [thinkWithLocalModel], [enhancePromptForMode], [getErrorResponse],
      [setChatMode], [switchProvider], [setAPIKey], [clearHistory].
    - [Wav]: [convertFloat32ArrayToWav] of the page script, over a byte
      buffer written through [DataView] setters.

    Strings are sequences of 8-bit code units (the Latin-1 range of the
    UTF-16 code units of a JS string); every literal of [core.js] is ASCII.
    The second copy of [core.js] in the repository has the same code with
    other literals for the placeholder and the apologies. *)

From Stdlib Require Import String Ascii List ZArith QArith Qround Bool Lia.
From Stdlib Require Import DecimalString Lqa.
Import ListNotations.

(** The two code units of the templates that a literal cannot hold. *)
Definition dquote : string := String (ascii_of_nat 34) EmptyString.
Definition newline : string := String (ascii_of_nat 10) EmptyString.

(** What a call can end in: a value, or a thrown exception (a rejected
    promise, for an [async] function). *)
Inductive exn : Type :=
| TypeError (msg : string)
| RangeError (msg : string)
| BackendFailure (msg : string).

Inductive outcome (A : Type) : Type :=
| Returns (a : A)
| Throws (e : exn).
Arguments Returns {A} a.
Arguments Throws {A} e.

Module JSString.
Local Open Scope string_scope.

(** WhiteSpace and LineTerminator code units below 256: TAB, LF, VT, FF, CR,
    SP and NBSP. *)
Definition isWhiteSpace (c : ascii) : bool :=
  let n := nat_of_ascii c in
  ((9 <=? n)%nat && (n <=? 13)%nat) || (n =? 32)%nat || (n =? 160)%nat.

Fixpoint trimStart (s : string) : string :=
  match s with
  | EmptyString => EmptyString
  | String c s' => if isWhiteSpace c then trimStart s' else s
  end.

Fixpoint trimEnd (s : string) : string :=
  match s with
  | EmptyString => EmptyString
  | String c s' =>
      match trimEnd s' with
      | EmptyString => if isWhiteSpace c then EmptyString else String c EmptyString
      | t => String c t
      end
  end.

(** [String.prototype.trim]. *)
Definition trim (s : string) : string := trimEnd (trimStart s).

Fixpoint drop (n : nat) (s : string) : string :=
  match n, s with
  | O, _ => s
  | S n', String _ s' => drop n' s'
  | S _, EmptyString => EmptyString
  end.

(** [s.includes(p)]: [p] occurs in [s] at some position. *)
Fixpoint includes (s p : string) : bool :=
  prefix p s ||
  match s with
  | EmptyString => false
  | String _ s' => includes s' p
  end.

(** [s.replace(p, r)] for a string pattern [p] and a replacement without
    dollar patterns: the leftmost occurrence of [p] is replaced, the rest of
    [s] is kept. *)
Fixpoint replace (s p r : string) : string :=
  if prefix p s then r ++ drop (String.length p) s
  else match s with
       | EmptyString => EmptyString
       | String c s' => String c (replace s' p r)
       end.

Definition whitespace_only (s : string) : bool :=
  forallb isWhiteSpace (list_ascii_of_string s).

End JSString.

Module Core.
Import JSString.
Local Open Scope string_scope.

(** ** Values and the trace of external calls *)

(** What [think] hands back: a string, or [undefined] when an array is read
    outside its bounds. *)
Inductive value : Type :=
| VString (s : string)
| VUndefined.

Record DecodingParams : Type := {
  max_new_tokens : Z;
  temperature : Q;
  top_k : Z;
  top_p : Q;
  do_sample : bool;
  repetition_penalty : Q
}.

Record Generation : Type := { generated_text : string }.

Inductive level : Type := Log | Error.

(** Every call that leaves the object is recorded, in order. *)
Inductive Event : Type :=
| EvIsConfigured
| EvChat (prompt : string)
| EvGenerate (prompt : string) (params : DecodingParams)
| EvRandom
| EvConsole (l : level) (msg : string)
| EvSwitchProvider (provider : string)
| EvSetAPIKey (provider apiKey : string)
| EvClearHistory.

Definition History : Type := list Event.

(** The text-generation pipeline held in [this.llm]. Its answer may depend
    on everything that happened before the call (sampling is enabled). *)
Definition Pipeline : Type :=
  History -> string -> DecodingParams -> outcome (list Generation).

(** The collaborator of [cloudAPI.js], with the signatures of its interface:
    only [chat] may fail. *)
Record CloudAPIService : Type := {
  cloud_isConfigured : History -> bool;
  cloud_chat : History -> string -> outcome string;
  cloud_switchProvider : History -> string -> bool;
  cloud_setAPIKey : History -> string -> string -> bool
}.

Record BellaAI : Type := {
  cloudAPI : CloudAPIService;
  llm : option Pipeline;
  useCloudAPI : bool;
  currentMode : string
}.

(** ** A state-and-exception monad over the trace. A throw keeps the trace:
    what was called before the failure stays called. *)

Definition M (A : Type) : Type := History -> outcome A * History.

Definition ret {A} (a : A) : M A := fun h => (Returns a, h).

Definition throw {A} (e : exn) : M A := fun h => (Throws e, h).

Definition bind {A B} (m : M A) (k : A -> M B) : M B :=
  fun h =>
    match m h with
    | (Returns a, h') => k a h'
    | (Throws e, h') => (Throws e, h')
    end.

Definition try_catch {A} (m : M A) (handler : exn -> M A) : M A :=
  fun h =>
    match m h with
    | (Returns a, h') => (Returns a, h')
    | (Throws e, h') => handler e h'
    end.

(** [ask ev f]: perform the external call [ev]; its answer is [f] of the
    trace before the call. *)
Definition ask {A} (ev : Event) (f : History -> outcome A) : M A :=
  fun h => (f h, (h ++ [ev])%list).

Notation "x <- m ;; k" := (bind m (fun x => k))
  (at level 61, m at next level, right associativity).
Notation "m ;;; k" := (bind m (fun _ => k))
  (at level 61, right associativity).

Definition console (l : level) (msg : string) : M unit :=
  ask (EvConsole l msg) (fun _ => Returns tt).

(** [arr[i]] for a JS number [i]. *)
Definition array_get (arr : list string) (i : Z) : value :=
  if (i <? 0)%Z then VUndefined
  else match nth_error arr (Z.to_nat i) with
       | Some s => VString s
       | None => VUndefined
       end.

Section WithRandom.

(** [Math.random()]: the draw made after trace [h]. *)
Variable Math_random : History -> Q.

(** [arr[Math.floor(Math.random() * arr.length)]]. *)
Definition random_element (arr : list string) : M value :=
  u <- ask EvRandom (fun h => Returns (Math_random h)) ;;
  ret (array_get arr (Qfloor (u * inject_Z (Z.of_nat (List.length arr))))).

(** ** [enhancePromptForMode] *)

Definition englishPrompts (prompt : string) : list (string * string) :=
  [ ("casual",
     "You are Bella, a friendly AI. Have a natural conversation in English. User: "
       ++ dquote ++ prompt ++ dquote ++ newline ++ "Bella:");
    ("assistant",
     "You are Bella, a helpful AI assistant. Respond naturally in English. User: "
       ++ dquote ++ prompt ++ dquote ++ newline ++ "Bella:");
    ("creative",
     "You are Bella, a creative AI companion. Chat naturally in English. User: "
       ++ dquote ++ prompt ++ dquote ++ newline ++ "Bella:") ].

Fixpoint lookup (key : string) (obj : list (string * string)) : option string :=
  match obj with
  | [] => None
  | (k, v) :: rest => if String.eqb k key then Some v else lookup key rest
  end.

Definition enhancePromptForMode (this : BellaAI) (prompt : string)
    (isLocal : bool) : string :=
  if isLocal then
    match lookup (currentMode this) (englishPrompts prompt) with
    | Some p => p
    | None =>
        match lookup "casual" (englishPrompts prompt) with
        | Some p => p
        | None => EmptyString
        end
    end
  else
    "You are Bella, a friendly AI assistant. Please respond naturally and conversationally in English."
      ++ newline ++ newline ++ "User: " ++ prompt ++ newline ++ "Bella:".

(** ** [getErrorResponse] *)

Definition errorResponses : list string :=
  [ "Sorry, I'm a bit confused right now, let me reorganize my thoughts...";
    "Hmm... let me think about this more, please wait a moment.";
    "My thoughts are a bit complex, I need time to organize them.";
    "Let me reorganize and get back to you, just a moment." ].

Definition getErrorResponse (this : BellaAI) : M value :=
  random_element errorResponses.

(** ** [thinkWithCloudAPI] *)

Definition thinkWithCloudAPI (this : BellaAI) (prompt : string) : M value :=
  let enhancedPrompt := enhancePromptForMode this prompt false in
  r <- ask (EvChat enhancedPrompt)
           (fun h => cloud_chat (cloudAPI this) h enhancedPrompt) ;;
  ret (VString r).

(** ** [thinkWithLocalModel] *)

Definition placeholder : string :=
  "I'm still learning how to think, please wait a moment...".

Definition englishPrompt (prompt : string) : string :=
  "You are Bella, a friendly AI assistant. Please respond naturally and conversationally in English. User says: "
    ++ dquote ++ prompt ++ dquote ++ newline ++ "Bella:".

Definition decoding : DecodingParams :=
  {| max_new_tokens := 80;
     temperature := 8 # 10;
     top_k := 40;
     top_p := 9 # 10;
     do_sample := true;
     repetition_penalty := 12 # 10 |}.

Definition naturalResponses : list string :=
  [ "Hi! I'm doing great, thanks for asking! How about you?";
    "Hello there! I'm Bella, nice to meet you! What's on your mind?";
    "Hey! I'm here and ready to chat. What would you like to talk about?";
    "Hi! I'm feeling wonderful today. How can I help you?";
    "Hello! Thanks for saying hi. I'm doing well - how are you doing?" ].

(** The clean-up of the generated text: the prompt is removed, and the rest
    trimmed, only when the text includes the prompt. *)
Definition cleanup (response prompt : string) : string :=
  if includes response prompt
  then trim (replace response prompt EmptyString)
  else response.

(** The test of the replacement:
    [!response || response.length < 3 || response === '.' || response.trim() === '']. *)
Definition too_short_or_strange (response : string) : bool :=
  String.eqb response EmptyString
  || (String.length response <? 3)%nat
  || String.eqb response "."
  || String.eqb (trim response) EmptyString.

Definition thinkWithLocalModel (this : BellaAI) (prompt : string) : M value :=
  match llm this with
  | None => ret (VString placeholder)
  | Some pipeline =>
      let englishPrompt := englishPrompt prompt in
      console Log "Local model prompt:" ;;;
      result <- ask (EvGenerate englishPrompt decoding)
                    (fun h => pipeline h englishPrompt decoding) ;;
      console Log "Local model raw response:" ;;;
      first <- match result with
               | [] => throw (TypeError "result[0] is undefined")
               | g :: _ => ret g
               end ;;
      let response := cleanup (generated_text first) englishPrompt in
      response <- (if too_short_or_strange response
                   then random_element naturalResponses
                   else ret (VString response)) ;;
      console Log "Final response:" ;;;
      ret response
  end.

(** ** [think]

    One call is followed from its start to its end: [this.useCloudAPI] is
    read in the [try] block and again in the handler, and the fields of the
    object are those of [this] at both reads. *)

Definition think (this : BellaAI) (prompt : string) : M value :=
  try_catch
    (configured <- (if useCloudAPI this
                    then ask EvIsConfigured
                           (fun h => Returns (cloud_isConfigured (cloudAPI this) h))
                    else ret false) ;;
     if configured
     then thinkWithCloudAPI this prompt
     else thinkWithLocalModel this prompt)
    (fun error =>
       console Error "Error occurred during thinking process:" ;;;
       recovered <-
         (if useCloudAPI this
          then
            console Log "Cloud API failed, falling back to local model..." ;;;
            try_catch
              (v <- thinkWithLocalModel this prompt ;; ret (Some v))
              (fun localError =>
                 console Error "Local model also failed:" ;;; ret None)
          else ret None) ;;
       match recovered with
       | Some v => ret v
       | None => getErrorResponse this
       end).

(** The messages of the handler of [think]. *)
Definition thinking_error : Event :=
  EvConsole Error "Error occurred during thinking process:".
Definition fallback_notice : Event :=
  EvConsole Log "Cloud API failed, falling back to local model...".
Definition local_failed : Event :=
  EvConsole Error "Local model also failed:".

(** What the handler of [think] does from trace [h] when the cloud flag is
    set: one more run of the local path, then the apology. *)
Definition retry_local (this : BellaAI) (prompt : string) (h : History)
  : outcome value * History :=
  match thinkWithLocalModel this prompt
          (h ++ [thinking_error; fallback_notice])%list with
  | (Returns v, h') => (Returns v, h')
  | (Throws _, h') => getErrorResponse this (h' ++ [local_failed])%list
  end.

End WithRandom.

(** ** The setters. Each returns its result and the object after the call. *)

Definition modes : list string := ["casual"; "assistant"; "creative"].

(** [['casual', 'assistant', 'creative'].includes(mode)]: only a string can
    be equal to a member. *)
Definition array_includes (arr : list string) (v : value) : bool :=
  match v with
  | VString s => existsb (String.eqb s) arr
  | VUndefined => false
  end.

Definition with_mode (this : BellaAI) (mode : string) : BellaAI :=
  {| cloudAPI := cloudAPI this; llm := llm this;
     useCloudAPI := useCloudAPI this; currentMode := mode |}.

Definition with_useCloudAPI (this : BellaAI) (b : bool) : BellaAI :=
  {| cloudAPI := cloudAPI this; llm := llm this;
     useCloudAPI := b; currentMode := currentMode this |}.

Definition setChatMode (this : BellaAI) (mode : value) : bool * BellaAI :=
  if array_includes modes mode then
    match mode with
    | VString m => (true, with_mode this m)
    | VUndefined => (true, this)
    end
  else (false, this).

Definition switchProvider (this : BellaAI) (provider : string)
  : History -> (bool * BellaAI) * History :=
  fun h =>
    if String.eqb provider "local" then
      ((true, with_useCloudAPI this false), h)
    else
      let success := cloud_switchProvider (cloudAPI this) h provider in
      let h' := (h ++ [EvSwitchProvider provider])%list in
      if success
      then ((success, with_useCloudAPI this true), h')
      else ((success, this), h').

Definition setAPIKey (this : BellaAI) (provider apiKey : string)
  : History -> (bool * BellaAI) * History :=
  fun h =>
    ((cloud_setAPIKey (cloudAPI this) h provider apiKey, this),
     (h ++ [EvSetAPIKey provider apiKey])%list).

Definition clearHistory (this : BellaAI)
  : History -> (unit * BellaAI) * History :=
  fun h => ((tt, this), (h ++ [EvClearHistory])%list).

(** The object built by the constructor, once [init] has set [llm]. *)
Definition new_BellaAI (cloud : CloudAPIService) (model : option Pipeline)
  : BellaAI :=
  {| cloudAPI := cloud; llm := model; useCloudAPI := false;
     currentMode := "casual" |}.

(** ** Observations on replies and traces *)

(** A degenerate reply: empty, a single period, or white space only. *)
Definition degenerate (s : string) : bool :=
  String.eqb s EmptyString || String.eqb s "." || whitespace_only s.

Definition is_generate (ev : Event) : bool :=
  match ev with EvGenerate _ _ => true | _ => false end.

Definition is_chat (ev : Event) : bool :=
  match ev with EvChat _ => true | _ => false end.

Definition is_fallback_notice (ev : Event) : bool :=
  match ev with
  | EvConsole Log msg =>
      String.eqb msg "Cloud API failed, falling back to local model..."
  | _ => false
  end.

Definition count (f : Event -> bool) (h : History) : nat :=
  List.length (filter f h).

(** The prompts handed to the local generator, in call order. *)
Definition generate_prompts (h : History) : list string :=
  flat_map (fun ev => match ev with EvGenerate p _ => [p] | _ => [] end) h.

(** [Math.random] answers in [0, 1). *)
Definition unit_interval (Math_random : History -> Q) : Prop :=
  forall h, 0 <= Math_random h /\ Math_random h < 1.

(** The behavioural instruction that sets a mode's local template apart. *)
Definition mode_fragment (mode : string) : string :=
  if String.eqb mode "assistant" then "Respond naturally"
  else if String.eqb mode "creative" then "Chat naturally"
  else "Have a natural conversation".



End Core.

Module Wav.
Local Open Scope Z_scope.

(** ** Numbers

    A [Float32Array] element is a finite binary fraction, a NaN or an
    infinity. Finite values are kept as exact rationals: a float32 has a
    24-bit significand and [0x7FFF] has 15 bits, so the double product
    [sample * 0x7FFF] of the source is exact, and so are [Math.min] and
    [Math.max]. The two zeros are not told apart: every use below sends both
    to the same bytes. *)
Inductive float : Type :=
| Finite (q : Q)
| NaN
| PosInfinity
| NegInfinity.

Definition Math_min (a b : float) : float :=
  match a, b with
  | NaN, _ | _, NaN => NaN
  | NegInfinity, _ | _, NegInfinity => NegInfinity
  | PosInfinity, x | x, PosInfinity => x
  | Finite x, Finite y => if Qle_bool x y then Finite x else Finite y
  end.

Definition Math_max (a b : float) : float :=
  match a, b with
  | NaN, _ | _, NaN => NaN
  | PosInfinity, _ | _, PosInfinity => PosInfinity
  | NegInfinity, x | x, NegInfinity => x
  | Finite x, Finite y => if Qle_bool x y then Finite y else Finite x
  end.

Definition infinity (negative : bool) : float :=
  if negative then NegInfinity else PosInfinity.

(** The product [a * b] of two numbers. *)
Definition mul (a b : float) : float :=
  match a, b with
  | NaN, _ | _, NaN => NaN
  | Finite x, Finite y => Finite (x * y)
  | Finite x, PosInfinity | PosInfinity, Finite x =>
      if Qeq_bool x 0 then NaN else infinity (negb (Qle_bool 0 x))
  | Finite x, NegInfinity | NegInfinity, Finite x =>
      if Qeq_bool x 0 then NaN else infinity (Qle_bool 0 x)
  | PosInfinity, PosInfinity | NegInfinity, NegInfinity => PosInfinity
  | PosInfinity, NegInfinity | NegInfinity, PosInfinity => NegInfinity
  end.

(** Rounding toward zero. *)
Definition truncate (q : Q) : Z :=
  if Qle_bool 0 q then Qfloor q else Qceiling q.

(** [ToInt16]: NaN and the infinities give 0; a finite number is truncated,
    reduced modulo [2^16] and read as a signed 16-bit integer. *)
Definition ToInt16 (v : float) : Z :=
  match v with
  | Finite q =>
      let int16bit := truncate q mod 2 ^ 16 in
      if 2 ^ 15 <=? int16bit then int16bit - 2 ^ 16 else int16bit
  | _ => 0
  end.

(** [ToUint32] and [ToUint16] of an integral number. *)
Definition ToUint32 (n : Z) : Z := n mod 2 ^ 32.
Definition ToUint16 (n : Z) : Z := n mod 2 ^ 16.
Definition ToUint8 (n : Z) : Z := n mod 2 ^ 8.

(** ** [ArrayBuffer] and [DataView] *)

(** The bytes of the buffer, each in [0, 256). *)
Definition ArrayBuffer : Type := list Z.

(** [new ArrayBuffer(n)]: [n] zero bytes. *)
Definition new_ArrayBuffer (n : nat) : ArrayBuffer := repeat 0 n.

(** The [k]-th byte of [n], least significant first. *)
Definition byte (n : Z) (k : nat) : Z := (n / 2 ^ (8 * Z.of_nat k)) mod 256.

(** The [width] bytes of [n] in little-endian order. *)
Definition little_endian (width : nat) (n : Z) : list Z :=
  map (byte n) (seq 0 width).

(** A [DataView] setter: a [RangeError] when the bytes do not fit in the
    view, else the bytes replace those at [offset]. *)
Definition set_bytes (offset : nat) (bytes : list Z) (buffer : ArrayBuffer)
  : outcome ArrayBuffer :=
  if (offset + length bytes <=? length buffer)%nat
  then Returns (firstn offset buffer ++ bytes
                  ++ skipn (offset + length bytes) buffer)
  else Throws (RangeError "Offset is outside the bounds of the DataView").

Definition setUint8 (offset : nat) (value : Z) : ArrayBuffer -> outcome ArrayBuffer :=
  set_bytes offset (little_endian 1 (ToUint8 value)).

(** [view.setUint16(offset, value, true)] *)
Definition setUint16 (offset : nat) (value : Z) : ArrayBuffer -> outcome ArrayBuffer :=
  set_bytes offset (little_endian 2 (ToUint16 value)).

(** [view.setUint32(offset, value, true)] *)
Definition setUint32 (offset : nat) (value : Z) : ArrayBuffer -> outcome ArrayBuffer :=
  set_bytes offset (little_endian 4 (ToUint32 value)).

(** [view.setInt16(offset, value, true)] *)
Definition setInt16 (offset : nat) (value : float) : ArrayBuffer -> outcome ArrayBuffer :=
  set_bytes offset (little_endian 2 (ToInt16 value)).

(** Sequencing of the writes: the first exception ends the function. *)
Definition andThen (r : outcome ArrayBuffer)
    (k : ArrayBuffer -> outcome ArrayBuffer) : outcome ArrayBuffer :=
  match r with
  | Returns buffer => k buffer
  | Throws e => Throws e
  end.

Notation "r >>= k" := (andThen r k) (at level 50, left associativity).

(** ** [convertFloat32ArrayToWav] *)

(** The inner [writeString]: one [setUint8] per code unit. *)
Fixpoint writeString (offset : nat) (s : string) (buffer : ArrayBuffer)
  : outcome ArrayBuffer :=
  match s with
  | EmptyString => Returns buffer
  | String c s' =>
      setUint8 offset (Z.of_nat (nat_of_ascii c)) buffer
        >>= writeString (S offset) s'
  end.

(** One sample as the loop body converts it. *)
Definition convert_sample (x : float) : float :=
  let sample := Math_max (Finite (-1)) (Math_min (Finite 1) x) in
  mul sample (Finite (inject_Z 32767)).

(** The [for] loop over the samples, [offset] advancing by 2. *)
Fixpoint write_samples (audioData : list float) (offset : nat)
    (buffer : ArrayBuffer) : outcome ArrayBuffer :=
  match audioData with
  | [] => Returns buffer
  | x :: rest =>
      setInt16 offset (convert_sample x) buffer
        >>= write_samples rest (offset + 2)
  end.

Definition convertFloat32ArrayToWav (audioData : list float) (sampleRate : Z)
  : outcome ArrayBuffer :=
  let length := List.length audioData in
  let buffer := new_ArrayBuffer (44 + length * 2) in
  let len := Z.of_nat length in
  writeString 0 "RIFF" buffer
    >>= setUint32 4 (36 + len * 2)
    >>= writeString 8 "WAVE"
    >>= writeString 12 "fmt "
    >>= setUint32 16 16
    >>= setUint16 20 1
    >>= setUint16 22 1
    >>= setUint32 24 sampleRate
    >>= setUint32 28 (sampleRate * 2)
    >>= setUint16 32 2
    >>= setUint16 34 16
    >>= writeString 36 "data"
    >>= setUint32 40 (len * 2)
    >>= write_samples audioData 44.

(** ** Reading the container back *)

Definition getUint8 (buffer : ArrayBuffer) (offset : nat) : Z :=
  nth offset buffer 0.

Definition getUint16 (buffer : ArrayBuffer) (offset : nat) : Z :=
  getUint8 buffer offset + 2 ^ 8 * getUint8 buffer (offset + 1).

Definition getUint32 (buffer : ArrayBuffer) (offset : nat) : Z :=
  getUint16 buffer offset + 2 ^ 16 * getUint16 buffer (offset + 2).

Definition getInt16 (buffer : ArrayBuffer) (offset : nat) : Z :=
  let u := getUint16 buffer offset in
  if 2 ^ 15 <=? u then u - 2 ^ 16 else u.

(** The code units of a four-character tag. *)
Definition tag (s : string) : list Z :=
  map (fun c => Z.of_nat (nat_of_ascii c)) (list_ascii_of_string s).

Definition getTag (buffer : ArrayBuffer) (offset : nat) : list Z :=
  firstn 4 (skipn offset buffer).

(** The 16-bit integer stored for a sample. *)
Definition encode_sample (x : float) : Z := ToInt16 (convert_sample x).

(** The 44 bytes of the header, field by field, and the two bytes of a
    sample. *)
Definition wav_header (len sampleRate : Z) : list Z :=
  tag "RIFF" ++ little_endian 4 (ToUint32 (36 + len * 2))
  ++ tag "WAVE" ++ tag "fmt "
  ++ little_endian 4 (ToUint32 16)
  ++ little_endian 2 (ToUint16 1) ++ little_endian 2 (ToUint16 1)
  ++ little_endian 4 (ToUint32 sampleRate)
  ++ little_endian 4 (ToUint32 (sampleRate * 2))
  ++ little_endian 2 (ToUint16 2) ++ little_endian 2 (ToUint16 16)
  ++ tag "data" ++ little_endian 4 (ToUint32 (len * 2)).

Definition sample_bytes (x : float) : list Z :=
  little_endian 2 (encode_sample x).

(** Modelled from the spec: the reference per-sample conversion, which the
    source does not contain: clamp to [-1, 1], scale by 32767 and round to the
    nearest integer. *)
Definition clampQ (q : Q) : Q :=
  if Qle_bool q (-1) then -1 else if Qle_bool 1 q then 1 else q.


End Wav.

(** * Concrete collaborators and objects, for the examples below *)

Module Scenarios.
Import Core.
Local Open Scope string_scope.

Definition half : History -> Q := fun _ => 1 # 2.

(** A configured provider whose [chat] answers with the empty string. *)
Definition silent_cloud : CloudAPIService :=
  {| cloud_isConfigured := fun _ => true;
     cloud_chat := fun _ _ => Returns EmptyString;
     cloud_switchProvider := fun _ _ => true;
     cloud_setAPIKey := fun _ _ _ => true |}.

(** A configured provider whose [chat] always fails. *)
Definition failing_cloud : CloudAPIService :=
  {| cloud_isConfigured := fun _ => true;
     cloud_chat := fun _ _ => Throws (BackendFailure "HTTP 500");
     cloud_switchProvider := fun _ _ => true;
     cloud_setAPIKey := fun _ _ _ => true |}.

(** A provider without a key: not configured, and it refuses a switch. *)
Definition unconfigured_cloud : CloudAPIService :=
  {| cloud_isConfigured := fun _ => false;
     cloud_chat := fun _ _ => Throws (BackendFailure "no API key");
     cloud_switchProvider := fun _ _ => false;
     cloud_setAPIKey := fun _ _ _ => true |}.

(** A generator that echoes its prompt and adds nothing. *)
Definition echo_pipeline : Pipeline :=
  fun _ prompt _ => Returns [ {| generated_text := prompt |} ].


Definition friendly_pipeline : Pipeline :=
  fun _ _ _ => Returns [ {| generated_text := "Hello there friend" |} ].

(** A generator whose first call fails and whose later calls answer. *)
Definition flaky_pipeline : Pipeline :=
  fun h _ _ =>
    if existsb is_generate h
    then Returns [ {| generated_text := "Hello there friend" |} ]
    else Throws (BackendFailure "inference failed").

(** A generator that always fails. *)
Definition broken_pipeline : Pipeline :=
  fun _ _ _ => Throws (BackendFailure "inference failed").

Definition bella (cloud : CloudAPIService) (model : option Pipeline)
    (cloudSelected : bool) : BellaAI :=
  with_useCloudAPI (new_BellaAI cloud model) cloudSelected.

End Scenarios.

(** * The object over a session: sequences of setter calls, and
      [getCurrentConfig] *)

Module Session.
Import Core.
Local Open Scope string_scope.

Definition is_random (ev : Event) : bool :=
  match ev with EvRandom => true | _ => false end.

Definition is_isConfigured (ev : Event) : bool :=
  match ev with EvIsConfigured => true | _ => false end.

(** A call of one of the four methods that can be made on the object between
    two [think] calls. *)
Inductive Operation : Type :=
| SetChatMode (mode : value)
| SwitchProvider (provider : string)
| SetAPIKey (provider apiKey : string)
| ClearHistory.

(** The object and the trace after one call. *)
Definition step (s : BellaAI * History) (op : Operation) : BellaAI * History :=
  match op with
  | SetChatMode mode => (snd (setChatMode (fst s) mode), snd s)
  | SwitchProvider provider =>
      (snd (fst (switchProvider (fst s) provider (snd s))),
       snd (switchProvider (fst s) provider (snd s)))
  | SetAPIKey provider apiKey =>
      (snd (fst (setAPIKey (fst s) provider apiKey (snd s))),
       snd (setAPIKey (fst s) provider apiKey (snd s)))
  | ClearHistory =>
      (snd (fst (clearHistory (fst s) (snd s))),
       snd (clearHistory (fst s) (snd s)))
  end.

(** The calls of [ops], in order. *)
Definition run (ops : list Operation) (s : BellaAI * History)
  : BellaAI * History :=
  fold_left step ops s.

(** Somewhere in [h] the collaborator accepted a switch to a provider other
    than [local]. *)
Definition accepted_switch (cloud : CloudAPIService) (h : History) : Prop :=
  exists pre provider post,
    h = (pre ++ EvSwitchProvider provider :: post)%list
    /\ provider <> "local"
    /\ cloud_switchProvider cloud pre provider = true.

(** ** [getCurrentConfig] *)

Record ProviderInfo : Type := { name : string; model : string }.

Record Config : Type := {
  config_useCloudAPI : bool;
  config_provider : ProviderInfo;
  config_mode : string;
  config_isConfigured : bool
}.

(** The object literal is evaluated field by field. [getCurrentProvider] is
    the getter of the collaborator, answered from the trace; it leaves no
    event. [isConfigured] is the call that [think] makes too. *)
Definition getCurrentConfig (getCurrentProvider : History -> ProviderInfo)
    (this : BellaAI) : History -> Config * History :=
  fun h =>
    let provider :=
      if useCloudAPI this then getCurrentProvider h
      else {| name := "local"; model := "LaMini-Flan-T5-77M" |} in
    let configured :=
      if useCloudAPI this then cloud_isConfigured (cloudAPI this) h
      else true in
    ({| config_useCloudAPI := useCloudAPI this;
        config_provider := provider;
        config_mode := currentMode this;
        config_isConfigured := configured |},
     if useCloudAPI this then (h ++ [EvIsConfigured])%list else h).

End Session.

(** * The rest of [BellaAI]: [getInstance], [init], [listen] and [speak] *)

Module Voice.
Local Open Scope string_scope.

(** What is thrown: an [Error] built by the code itself, with its message,
    or whatever a collaborator failed with. *)
Inductive thrown : Type :=
| JsError (message : string)
| External (e : exn).

Inductive completion (A : Type) : Type :=
| Done (a : A)
| Raised (e : thrown).
Arguments Done {A} a.
Arguments Raised {A} e.

Inductive severity : Type := Info | Warning | Failure.

(** The calls that leave the object, in order. *)
Inductive Event : Type :=
| EvPipeline (task model : string)
| EvTokenizer (modelPath : string)
| EvSpeechModel (modelPath : string)
| EvPipelineFrom (task : string)
| EvRecognize
| EvFetch (url : string)
| EvArrayBuffer
| EvSynthesize (text : string)
| EvSpeak (text : string)
| EvConsole (s : severity) (message : string).

Definition Trace : Type := list Event.

Definition M (A : Type) : Type := Trace -> completion A * Trace.

Definition ret {A} (a : A) : M A := fun h => (Done a, h).

Definition throw {A} (e : thrown) : M A := fun h => (Raised e, h).

Definition bind {A B} (m : M A) (k : A -> M B) : M B :=
  fun h =>
    match m h with
    | (Done a, h') => k a h'
    | (Raised e, h') => (Raised e, h')
    end.

Definition try_catch {A} (m : M A) (handler : thrown -> M A) : M A :=
  fun h =>
    match m h with
    | (Done a, h') => (Done a, h')
    | (Raised e, h') => handler e h'
    end.

Definition ask {A} (ev : Event) (f : Trace -> completion A) : M A :=
  fun h => (f h, (h ++ [ev])%list).

Notation "x <- m ;; k" := (bind m (fun x => k))
  (at level 61, m at next level, right associativity).
Notation "m ;;; k" := (bind m (fun _ => k))
  (at level 61, right associativity).

Definition console (s : severity) (message : string) : M unit :=
  ask (EvConsole s message) (fun _ => Done tt).

(** ** The collaborators *)

Inductive Tokenizer : Type := tokenizer_handle (id : nat).
Inductive SpeechModel : Type := model_handle (id : nat).

Definition AudioInput : Type := list Wav.float.

Record Transcription : Type := { text : string }.

(** The recognizer held in [this.asr]. *)
Definition Recognizer : Type :=
  Trace -> AudioInput -> completion Transcription.

(** What the synthesizer resolves to: nothing, or an object whose [audio]
    may be missing. *)
Record SpeechOutput : Type := { audio : option (list Wav.float) }.

(** The synthesizer held in [this.tts], called with the text and the
    speaker embeddings. *)
Definition Synthesizer : Type :=
  Trace -> string -> list Z -> completion (option SpeechOutput).

(** The three uses of the inference library in [init]. *)
Record Transformers : Type := {
  text2text_pipeline : Trace -> completion Core.Pipeline;
  tokenizer_from_pretrained : Trace -> completion Tokenizer;
  model_from_pretrained : Trace -> completion SpeechModel;
  asr_pipeline : Trace -> SpeechModel -> Tokenizer -> completion Recognizer;
  tts_pipeline : Trace -> completion Synthesizer
}.

Record Response : Type := {
  ok : bool;
  status : Z;
  arrayBuffer : Trace -> completion (list Z)
}.

(** The events of a [SpeechSynthesisUtterance] that have a handler. *)
Inductive UtteranceEvent : Type :=
| OnStart
| OnEnd
| OnError (error : thrown).

(** [fetch], and [window.speechSynthesis] when the browser has it: the
    events the utterance fires, in order. *)
Record Browser : Type := {
  fetch : Trace -> string -> completion Response;
  speechSynthesis : option (Trace -> string -> list UtteranceEvent)
}.

(** ** The object *)

Record BellaVoice : Type := {
  brain : Core.BellaAI;
  asr : option Recognizer;
  tts : option Synthesizer
}.

Definition set_llm (this : BellaVoice) (pipeline : Core.Pipeline) : BellaVoice :=
  {| brain := {| Core.cloudAPI := Core.cloudAPI (brain this);
                 Core.llm := Some pipeline;
                 Core.useCloudAPI := Core.useCloudAPI (brain this);
                 Core.currentMode := Core.currentMode (brain this) |};
     asr := asr this; tts := tts this |}.

Definition set_asr (this : BellaVoice) (r : option Recognizer) : BellaVoice :=
  {| brain := brain this; asr := r; tts := tts this |}.

Definition set_tts (this : BellaVoice) (s : option Synthesizer) : BellaVoice :=
  {| brain := brain this; asr := asr this; tts := s |}.

(** The constructor: the three models are not set yet. *)
Definition new_BellaAI (cloud : Core.CloudAPIService) : BellaVoice :=
  {| brain := Core.new_BellaAI cloud None; asr := None; tts := None |}.

(** ** [init] *)

Definition init (lib : Transformers) (this : BellaVoice) : M BellaVoice :=
  console Info "Initializing Bella's core AI..." ;;;
  this <- try_catch
            (console Info "Loading LLM model..." ;;;
             pipeline <- ask (EvPipeline "text2text-generation"
                                "Xenova/LaMini-Flan-T5-77M")
                             (text2text_pipeline lib) ;;
             console Info "LLM model loaded successfully." ;;;
             ret (set_llm this pipeline))
            (fun error =>
               console Failure "Failed to load LLM model:" ;;; ret this) ;;
  this <- try_catch
            (console Info "Loading ASR model..." ;;;
             tokenizer <- ask (EvTokenizer "Xenova/whisper-asr")
                              (tokenizer_from_pretrained lib) ;;
             model <- ask (EvSpeechModel "Xenova/whisper-asr")
                          (model_from_pretrained lib) ;;
             recognizer <- ask (EvPipelineFrom "automatic-speech-recognition")
                               (fun h => asr_pipeline lib h model tokenizer) ;;
             console Info "ASR model loaded successfully." ;;;
             ret (set_asr this (Some recognizer)))
            (fun error =>
               console Warning
                 "ASR model failed to load, voice recognition will be disabled:" ;;;
               ret (set_asr this None)) ;;
  this <- try_catch
            (console Info "Loading TTS model..." ;;;
             synthesizer <- ask (EvPipeline "text-to-speech"
                                   "Xenova/speecht5_tts")
                                (tts_pipeline lib) ;;
             console Info "TTS model loaded successfully." ;;;
             ret (set_tts this (Some synthesizer)))
            (fun error =>
               console Warning
                 "TTS model failed to load, voice synthesis will be disabled:" ;;;
               ret (set_tts this None)) ;;
  console Info "Bella's core AI initialized successfully." ;;;
  ret this.

(** ** [getInstance]. The static field [instance] goes in and comes out. *)

Definition getInstance (lib : Transformers) (cloud : Core.CloudAPIService)
    (instance : option BellaVoice) : M (BellaVoice * option BellaVoice) :=
  match instance with
  | None =>
      this <- init lib (new_BellaAI cloud) ;;
      ret (this, Some this)
  | Some this => ret (this, Some this)
  end.

(** ** [listen] *)

Definition listen (this : BellaVoice) (audioData : AudioInput) : M string :=
  match asr this with
  | None => throw (JsError "Speech recognition model not initialized")
  | Some recognizer =>
      result <- ask EvRecognize (fun h => recognizer h audioData) ;;
      ret (text result)
  end.

(** ** [speak] *)

Definition speaker_embeddings_url : string :=
  "./models/Xenova/speecht5_tts/speaker_embeddings.bin".

(** The body of the [try] block: the audio of the SpeechT5 model. *)
Definition speechT5 (browser : Browser) (synthesizer : Synthesizer)
    (text : string) : M (list Wav.float) :=
  console Info "Using SpeechT5 TTS model" ;;;
  response <- ask (EvFetch speaker_embeddings_url)
                  (fun h => fetch browser h speaker_embeddings_url) ;;
  (if ok response then ret tt
   else throw (JsError ("Failed to load speaker embeddings: "
                          ++ NilZero.string_of_int (Z.to_int (status response))))) ;;;
  speaker_embeddings <- ask EvArrayBuffer (arrayBuffer response) ;;
  console Info "Speaker embeddings loaded, size:" ;;;
  result <- ask (EvSynthesize text)
                (fun h => synthesizer h text speaker_embeddings) ;;
  console Info "SpeechT5 TTS result:" ;;;
  match result with
  | Some {| audio := Some samples |} =>
      console Info "SpeechT5 audio data generated successfully" ;;;
      ret samples
  | _ => throw (JsError "No audio data in SpeechT5 result")
  end.

(** What [speak] resolves to: the samples of the model, or [true] once the
    browser's voice has started. *)
Inductive SpeakValue : Type :=
| Samples (samples : list Wav.float)
| PlaybackStarted.

(** A promise: fulfilled, rejected, or never settled. *)
Inductive settled (A : Type) : Type :=
| Fulfilled (a : A)
| Rejected (e : thrown)
| Pending.
Arguments Fulfilled {A} a.
Arguments Rejected {A} e.
Arguments Pending {A}.

(** The promise around the utterance: [onstart] resolves it with [true],
    [onerror] rejects it, and the first of the two settles it. *)
Fixpoint settle (events : list UtteranceEvent) : settled SpeakValue :=
  match events with
  | [] => Pending
  | OnStart :: _ => Fulfilled PlaybackStarted
  | OnError error :: _ => Rejected error
  | OnEnd :: rest => settle rest
  end.

(** Every handler writes to the console, settled or not. *)
Definition handler_message (ev : UtteranceEvent) : Event :=
  match ev with
  | OnStart => EvConsole Info "Web Speech API TTS playback started"
  | OnEnd => EvConsole Info "Web Speech API TTS playback completed"
  | OnError _ => EvConsole Failure "Web Speech API TTS error:"
  end.

Definition speak (browser : Browser) (this : BellaVoice) (text : string)
  : Trace -> settled SpeakValue * Trace :=
  fun h0 =>
    match (console Info "TTS speak called, text:" ;;;
           match tts this with
           | Some synthesizer =>
               try_catch
                 (samples <- speechT5 browser synthesizer text ;;
                  ret (Some samples))
                 (fun speechT5Error =>
                    console Failure
                      "SpeechT5 TTS error, falling back to Web Speech API:" ;;;
                    ret None)
           | None => ret None
           end) h0 with
    | (Done (Some samples), h) => (Fulfilled (Samples samples), h)
    | (Done None, h) =>
        match speechSynthesis browser with
        | Some fire =>
            (settle (fire h text),
             (h ++ EvSpeak text :: map handler_message (fire h text))%list)
        | None => (Rejected (JsError "TTS is not available"), h)
        end
    | (Raised e, h) => (Rejected e, h)
    end.

(** ** Observations *)

(** The first thing [speak] does. *)
Definition spoken : Event := EvConsole Info "TTS speak called, text:".

Definition is_pipeline (ev : Event) : bool :=
  match ev with EvPipeline _ _ => true | _ => false end.

Definition is_tokenizer (ev : Event) : bool :=
  match ev with EvTokenizer _ => true | _ => false end.

Definition is_speak (ev : Event) : bool :=
  match ev with EvSpeak _ => true | _ => false end.

Definition is_synthesize (ev : Event) : bool :=
  match ev with EvSynthesize _ => true | _ => false end.

Definition count (f : Event -> bool) (h : Trace) : nat :=
  List.length (filter f h).

Definition is_end (ev : UtteranceEvent) : bool :=
  match ev with OnEnd => true | _ => false end.

End Voice.

(** * Concrete libraries and browsers, for the examples below *)

Module VoiceScenarios.
Import Voice.
Local Open Scope string_scope.

Definition not_found : thrown := External (BackendFailure "404").

(** A library in which only the text model loads. *)
Definition text_only_library : Transformers :=
  {| text2text_pipeline := fun _ => Done Scenarios.friendly_pipeline;
     tokenizer_from_pretrained := fun _ => Raised not_found;
     model_from_pretrained := fun _ => Raised not_found;
     asr_pipeline := fun _ _ _ => Raised not_found;
     tts_pipeline := fun _ => Raised not_found |}.

(** A library in which nothing loads. *)
Definition empty_library : Transformers :=
  {| text2text_pipeline := fun _ => Raised not_found;
     tokenizer_from_pretrained := fun _ => Raised not_found;
     model_from_pretrained := fun _ => Raised not_found;
     asr_pipeline := fun _ _ _ => Raised not_found;
     tts_pipeline := fun _ => Raised not_found |}.

(** A synthesizer that resolves to an object without audio. *)
Definition mute_synthesizer : Synthesizer :=
  fun _ _ _ => Done (Some {| audio := None |}).

Definition beep : list Wav.float := [Wav.Finite (1 # 2); Wav.Finite (-1 # 2)].

Definition beep_synthesizer : Synthesizer :=
  fun _ _ _ => Done (Some {| audio := Some beep |}).

Definition embeddings : Response :=
  {| ok := true; status := 200; arrayBuffer := fun _ => Done [1; 2; 3]%Z |}.

(** A browser without a voice whose [fetch] answers. *)
Definition silent_browser : Browser :=
  {| fetch := fun _ _ => Done embeddings; speechSynthesis := None |}.

(** A browser whose voice starts and is then interrupted. *)
Definition interrupted_browser : Browser :=
  {| fetch := fun _ _ => Raised not_found;
     speechSynthesis :=
       Some (fun _ _ => [OnStart; OnError (JsError "interrupted"); OnEnd]) |}.

(** A browser whose voice fails before it starts. *)
Definition failing_browser : Browser :=
  {| fetch := fun _ _ => Raised not_found;
     speechSynthesis :=
       Some (fun _ _ => [OnError (JsError "synthesis-failed")]) |}.

Definition voice (synthesizer : option Synthesizer) : BellaVoice :=
  set_tts (new_BellaAI Scenarios.unconfigured_cloud) synthesizer.

End VoiceScenarios.

(** * The page script: the recognition handler, the playback of a reply,
      the choice of the next video and the microphone button *)

Module Page.
Import JSString.
Local Open Scope string_scope.

(** ** [recognition.onresult] *)

(** A [SpeechRecognitionResult], with the transcript of its first
    alternative. *)
Record RecognitionResult : Type := { isFinal : bool; transcript : string }.

(** The [for] loop over [event.results], from the index it has reached, with
    the two accumulators. *)
Fixpoint collect (results : list RecognitionResult)
    (final_transcript interim_transcript : string) : string * string :=
  match results with
  | [] => (final_transcript, interim_transcript)
  | r :: rest =>
      if isFinal r
      then collect rest (final_transcript ++ transcript r) interim_transcript
      else collect rest final_transcript (interim_transcript ++ transcript r)
  end.

(** The transcripts of a list of results, joined in order. *)
Definition joined (results : list RecognitionResult) : string :=
  fold_right append EmptyString (map transcript results).

(** The loop from [event.resultIndex]. *)
Definition transcripts (resultIndex : nat) (results : list RecognitionResult)
  : string * string :=
  collect (skipn resultIndex results) EmptyString EmptyString.

(** [final_transcript || interim_transcript], the text shown. *)
Definition shown (final_transcript interim_transcript : string) : string :=
  if String.eqb final_transcript EmptyString then interim_transcript
  else final_transcript.

(** The utterance handed to [bellaAI.think], when the handler gets that
    far: [final_transcript && bellaAI], then [final_transcript.trim()]. *)
Definition userText (final_transcript : string) (bellaAI : bool)
  : option string :=
  if negb (String.eqb final_transcript EmptyString) && bellaAI
  then Some (trim final_transcript)
  else None.

(** ** The playback of what [speak] resolved to *)

Inductive Playback : Type :=
| PlayWav (wavBuffer : Wav.ArrayBuffer)
| WebSpeechUsed
| UnknownFormat
| TtsError (e : exn).

(** The dispatch on [audioData] inside the [try] of the handler. The value
    is never falsy, so the outer [else] is not reached. *)
Definition playback (audioData : Voice.SpeakValue) : Playback :=
  match audioData with
  | Voice.Samples samples =>
      if (0 <? List.length samples)%nat
      then match Wav.convertFloat32ArrayToWav samples 16000 with
           | Returns wavBuffer => PlayWav wavBuffer
           | Throws e => TtsError e
           end
      else UnknownFormat
  | Voice.PlaybackStarted => WebSpeechUsed
  end.

(** ** [switchVideo]: the choice of the next video *)



(** ** The microphone button *)

Inductive RecognitionCall : Type := Start | Stop.

(** One click: nothing without [SpeechRecognition]; else [isListening] is
    flipped and recognition is started or stopped to match. *)
Definition click (supported : bool) (s : bool * list RecognitionCall)
  : bool * list RecognitionCall :=
  if supported then
    let isListening := negb (fst s) in
    (isListening, (snd s ++ [if isListening then Start else Stop])%list)
  else s.

Fixpoint clicks (supported : bool) (n : nat) (s : bool * list RecognitionCall)
  : bool * list RecognitionCall :=
  match n with
  | O => s
  | S n' => clicks supported n' (click supported s)
  end.

(** The call the [k]-th effective click makes, counting from 0. *)
Definition call_of_click (k : nat) : RecognitionCall :=
  if Nat.even k then Start else Stop.

End Page.

(** * Facts about the string primitives *)

Module JSStringFacts.
Import JSString.
Local Open Scope string_scope.

Lemma whitespace_only_cons c s :
  whitespace_only (String c s) = isWhiteSpace c && whitespace_only s.
Proof. reflexivity. Qed.

Lemma trimStart_empty_iff s :
  trimStart s = EmptyString <-> whitespace_only s = true.
Proof.
  induction s as [|c s IH]; simpl.
  - split; reflexivity.
  - rewrite whitespace_only_cons.
    destruct (isWhiteSpace c); simpl.
    + exact IH.
    + split; discriminate.
Qed.

Lemma trimEnd_empty_iff s :
  trimEnd s = EmptyString <-> whitespace_only s = true.
Proof.
  induction s as [|c s IH]; simpl.
  - split; reflexivity.
  - rewrite whitespace_only_cons.
    destruct (trimEnd s) as [|d t] eqn:E.
    + destruct (isWhiteSpace c); simpl.
      * split; intros _; [apply IH|]; reflexivity.
      * split; discriminate.
    + split; [discriminate|].
      intros H. apply andb_prop in H as [_ H].
      apply IH in H. discriminate.
Qed.

(** What [trimStart] leaves is empty or starts with a code unit that is not
    white space, and such a string is never emptied by [trimEnd]. *)
Lemma trimStart_head s :
  trimStart s = EmptyString \/
  exists c t, trimStart s = String c t /\ isWhiteSpace c = false.
Proof.
  induction s as [|c s IH]; simpl.
  - now left.
  - destruct (isWhiteSpace c) eqn:E.
    + exact IH.
    + right. now exists c, s.
Qed.

Lemma trimStart_whitespace_only s :
  whitespace_only (trimStart s) = whitespace_only s.
Proof.
  induction s as [|c s IH]; simpl; [reflexivity|].
  rewrite whitespace_only_cons.
  destruct (isWhiteSpace c) eqn:E; simpl.
  - exact IH.
  - rewrite whitespace_only_cons, E. reflexivity.
Qed.

(** [s.trim() === ''] exactly when [s] holds white space only. *)
Lemma trim_empty_iff s :
  trim s = EmptyString <-> whitespace_only s = true.
Proof.
  unfold trim. rewrite trimEnd_empty_iff.
  now rewrite trimStart_whitespace_only.
Qed.

Lemma prefix_app p r : prefix p (p ++ r) = true.
Proof.
  induction p as [|c p IH]; simpl.
  - now destruct r.
  - destruct (ascii_dec c c); [exact IH | congruence].
Qed.

Lemma drop_app p r : drop (String.length p) (p ++ r) = r.
Proof. induction p as [|c p IH]; simpl; [reflexivity | exact IH]. Qed.

Lemma includes_unfold s p :
  includes s p =
  prefix p s || match s with
                | EmptyString => false
                | String _ s' => includes s' p
                end.
Proof. destruct s; reflexivity. Qed.

Lemma replace_unfold s p r :
  replace s p r =
  if prefix p s then r ++ drop (String.length p) s
  else match s with
       | EmptyString => EmptyString
       | String c s' => String c (replace s' p r)
       end.
Proof. destruct s; reflexivity. Qed.

(** An echoed prompt at the start of the text is found, and removing it
    leaves the continuation. *)
Lemma includes_echo p r : includes (p ++ r) p = true.
Proof. rewrite includes_unfold, prefix_app. reflexivity. Qed.

Lemma replace_echo p r : replace (p ++ r) p EmptyString = r.
Proof. rewrite replace_unfold, prefix_app. simpl. apply drop_app. Qed.

Lemma includes_app_r a s p : includes s p = true -> includes (a ++ s) p = true.
Proof.
  intros H. induction a as [|c a IH]; simpl; [exact H|].
  rewrite IH. apply orb_true_r.
Qed.

(** A fragment that a template spells out is included in it. *)
Lemma includes_middle a p b : includes (a ++ p ++ b) p = true.
Proof. apply includes_app_r, includes_echo. Qed.

End JSStringFacts.

(** * Facts about [BellaAI] *)

Module CoreFacts.
Import JSString JSStringFacts Core.
Local Open Scope string_scope.
Local Open Scope list_scope.

(** ** Random choice from a pool *)

Lemma random_index_range (u : Q) (n : nat) :
  0 <= u -> u < 1 -> (0 < n)%nat ->
  (0 <= Qfloor (u * inject_Z (Z.of_nat n)) < Z.of_nat n)%Z.
Proof.
  intros Hlo Hhi Hn.
  assert (Hpos : 0 < inject_Z (Z.of_nat n)).
  { change 0 with (inject_Z 0). rewrite <- Zlt_Qlt. lia. }
  split.
  - change 0%Z with (Qfloor (inject_Z 0)).
    apply Qfloor_resp_le. change (inject_Z 0) with 0.
    apply Qmult_le_0_compat; [exact Hlo | apply Qlt_le_weak, Hpos].
  - rewrite Zlt_Qlt.
    apply Qle_lt_trans with (u * inject_Z (Z.of_nat n)); [apply Qfloor_le|].
    setoid_replace (inject_Z (Z.of_nat n)) with (1 * inject_Z (Z.of_nat n))
      at 2 by ring.
    apply Qmult_lt_compat_r; assumption.
Qed.

Lemma array_get_in arr i :
  (0 <= i < Z.of_nat (List.length arr))%Z ->
  exists s, array_get arr i = VString s /\ In s arr.
Proof.
  intros [Hlo Hhi]. unfold array_get.
  destruct (Z.ltb_spec i 0) as [?|_]; [lia|].
  destruct (nth_error arr (Z.to_nat i)) as [s|] eqn:E.
  - exists s. split; [reflexivity | eapply nth_error_In, E].
  - apply nth_error_None in E. lia.
Qed.


(** ** The pools and the placeholder hold no degenerate text *)

Lemma too_short_or_strange_false r :
  too_short_or_strange r = false ->
  r <> EmptyString /\ (3 <= String.length r)%nat /\ r <> "."
  /\ whitespace_only r = false.
Proof.
  unfold too_short_or_strange. intros H.
  repeat (apply orb_false_elim in H as [H ?]).
  repeat split.
  - now apply String.eqb_neq.
  - now apply Nat.ltb_ge.
  - now apply String.eqb_neq.
  - destruct (whitespace_only r) eqn:E; [|reflexivity].
    apply trim_empty_iff in E.
    apply String.eqb_neq in H0. contradiction.
Qed.

Lemma kept_text_not_degenerate r :
  too_short_or_strange r = false -> degenerate r = false.
Proof.
  intros H. apply too_short_or_strange_false in H as (H1 & _ & H2 & H3).
  unfold degenerate. rewrite H3.
  apply String.eqb_neq in H1, H2. now rewrite H1, H2.
Qed.

Lemma naturalResponses_not_degenerate s :
  In s naturalResponses -> degenerate s = false.
Proof.
  intros H.
  assert (A : forallb (fun t => negb (degenerate t)) naturalResponses = true)
    by reflexivity.
  rewrite forallb_forall in A. apply A in H. now apply negb_true_iff in H.
Qed.

Lemma errorResponses_not_degenerate s :
  In s errorResponses -> degenerate s = false.
Proof.
  intros H.
  assert (A : forallb (fun t => negb (degenerate t)) errorResponses = true)
    by reflexivity.
  rewrite forallb_forall in A. apply A in H. now apply negb_true_iff in H.
Qed.

Section Runs.

Variable Math_random : History -> Q.

(** ** One draw from a pool *)

Lemma random_element_run arr h :
  random_element Math_random arr h =
  (Returns (array_get arr
              (Qfloor (Math_random h * inject_Z (Z.of_nat (List.length arr))))),
   (h ++ [EvRandom])%list).
Proof. reflexivity. Qed.

Lemma random_draw_member arr h :
  unit_interval Math_random -> (0 < List.length arr)%nat ->
  exists s,
    array_get arr
      (Qfloor (Math_random h * inject_Z (Z.of_nat (List.length arr))))
    = VString s /\ In s arr.
Proof.
  intros Hu Hn. destruct (Hu h) as [Hlo Hhi].
  apply array_get_in. now apply random_index_range.
Qed.

(** ** The local path, step by step *)

Lemma thinkWithLocalModel_unloaded this prompt h :
  llm this = None ->
  thinkWithLocalModel Math_random this prompt h
  = (Returns (VString placeholder), h).
Proof. intros H. unfold thinkWithLocalModel. now rewrite H. Qed.

Lemma thinkWithLocalModel_loaded this pipeline prompt h :
  llm this = Some pipeline ->
  thinkWithLocalModel Math_random this prompt h =
  let p := englishPrompt prompt in
  let called := [EvConsole Log "Local model prompt:"; EvGenerate p decoding] in
  let answered := (called ++ [EvConsole Log "Local model raw response:"])%list in
  match pipeline (h ++ [EvConsole Log "Local model prompt:"])%list p decoding with
  | Throws e => (Throws e, (h ++ called)%list)
  | Returns [] =>
      (Throws (TypeError "result[0] is undefined"), (h ++ answered)%list)
  | Returns (first :: _) =>
      let response := cleanup (generated_text first) p in
      if too_short_or_strange response
      then (Returns (array_get naturalResponses
                       (Qfloor (Math_random (h ++ answered)%list * inject_Z 5))),
            (h ++ answered ++ [EvRandom; EvConsole Log "Final response:"])%list)
      else (Returns (VString response),
            (h ++ answered ++ [EvConsole Log "Final response:"])%list)
  end.
Proof.
  intros H. unfold thinkWithLocalModel. rewrite H.
  unfold random_element, console. unfold bind, ask, ret, throw.
  cbv zeta.
  destruct (pipeline _ _ _) as [[|first rest]|e];
    rewrite <- ?app_assoc; cbn [app]; try reflexivity.
  destruct (too_short_or_strange _);
    rewrite <- ?app_assoc; cbn [app]; reflexivity.
Qed.

(** The local path calls the generator once when a model is loaded and never
    otherwise, and it never talks to the cloud. *)
Lemma local_trace this prompt h :
  exists new,
    snd (thinkWithLocalModel Math_random this prompt h) = (h ++ new)%list
    /\ count is_generate new
       = match llm this with Some _ => 1%nat | None => 0%nat end
    /\ count is_chat new = 0%nat
    /\ count is_fallback_notice new = 0%nat.
Proof.
  destruct (llm this) as [pipeline|] eqn:E.
  - rewrite (thinkWithLocalModel_loaded _ _ _ _ E). cbv zeta.
    destruct (pipeline _ _ _) as [[|first rest]|e].
    + eexists. split; [reflexivity|]. repeat split.
    + destruct (too_short_or_strange _);
        (eexists; split; [reflexivity|]; repeat split).
    + eexists. split; [reflexivity|]. repeat split.
  - rewrite (thinkWithLocalModel_unloaded _ _ _ E).
    exists []. rewrite app_nil_r. repeat split.
Qed.

(** Whatever the local path returns is a string that is not degenerate. *)
Lemma local_value this prompt h v :
  unit_interval Math_random ->
  fst (thinkWithLocalModel Math_random this prompt h) = Returns v ->
  exists s, v = VString s /\ degenerate s = false.
Proof.
  intros Hu. destruct (llm this) as [pipeline|] eqn:E.
  - rewrite (thinkWithLocalModel_loaded _ _ _ _ E). cbv zeta.
    destruct (pipeline _ _ _) as [[|first rest]|e]; cbn [fst];
      try discriminate.
    destruct (too_short_or_strange _) eqn:T; cbn [fst]; intros [= <-].
    + destruct (random_draw_member naturalResponses
                  (h ++ [EvConsole Log "Local model prompt:";
                         EvGenerate (englishPrompt prompt) decoding]
                     ++ [EvConsole Log "Local model raw response:"])%list Hu)
        as (s & Hs & Hin); [cbn; lia|].
      exists s. split; [exact Hs | now apply naturalResponses_not_degenerate].
    + eexists. split; [reflexivity | now apply kept_text_not_degenerate].
  - rewrite (thinkWithLocalModel_unloaded _ _ _ E). cbn [fst].
    intros [= <-]. exists placeholder. split; reflexivity.
Qed.

(** ** [think], path by path *)

Lemma think_local_selected this prompt h :
  useCloudAPI this = false ->
  think Math_random this prompt h =
  match thinkWithLocalModel Math_random this prompt h with
  | (Returns v, h') => (Returns v, h')
  | (Throws _, h') =>
      getErrorResponse Math_random this (h' ++ [thinking_error])%list
  end.
Proof.
  intros H. unfold think, try_catch, console.
  unfold bind, ask, ret. rewrite H.
  destruct (thinkWithLocalModel _ _ _ h) as [[v|e] h']; reflexivity.
Qed.

Lemma think_cloud_unconfigured this prompt h :
  useCloudAPI this = true ->
  cloud_isConfigured (cloudAPI this) h = false ->
  think Math_random this prompt h =
  match thinkWithLocalModel Math_random this prompt
          (h ++ [EvIsConfigured])%list with
  | (Returns v, h') => (Returns v, h')
  | (Throws _, h') => retry_local Math_random this prompt h'
  end.
Proof.
  intros H C. unfold think, retry_local, try_catch, console.
  unfold bind, ask, ret. rewrite H, C.
  destruct (thinkWithLocalModel _ _ _ (h ++ [EvIsConfigured])%list)
    as [[v|e] h']; [reflexivity|].
  unfold thinking_error, fallback_notice, local_failed.
  rewrite <- !app_assoc. cbn [app].
  destruct (thinkWithLocalModel _ _ _ _) as [[v|e'] h'']; reflexivity.
Qed.

Lemma think_cloud_configured this prompt h :
  useCloudAPI this = true ->
  cloud_isConfigured (cloudAPI this) h = true ->
  think Math_random this prompt h =
  let p := enhancePromptForMode this prompt false in
  match cloud_chat (cloudAPI this) (h ++ [EvIsConfigured])%list p with
  | Returns s => (Returns (VString s), (h ++ [EvIsConfigured; EvChat p])%list)
  | Throws _ =>
      retry_local Math_random this prompt
        (h ++ [EvIsConfigured; EvChat p])%list
  end.
Proof.
  intros H C.
  unfold think, thinkWithCloudAPI, retry_local, try_catch, console.
  unfold bind, ask, ret. rewrite H, C. cbv zeta.
  destruct (cloud_chat _ _ _) as [s|e];
    rewrite <- ?app_assoc; cbn [app]; [reflexivity|].
  unfold thinking_error, fallback_notice, local_failed.
  destruct (thinkWithLocalModel _ _ _ _) as [[v|e'] h'']; reflexivity.
Qed.

(** The apology: a member of the fixed pool. *)
Lemma getErrorResponse_run this h :
  unit_interval Math_random ->
  exists s,
    getErrorResponse Math_random this h
    = (Returns (VString s), (h ++ [EvRandom])%list)
    /\ In s errorResponses.
Proof.
  intros Hu. unfold getErrorResponse. rewrite random_element_run.
  destruct (random_draw_member errorResponses h Hu) as (s & Hs & Hin);
    [cbn; lia|].
  exists s. now rewrite Hs.
Qed.

Lemma retry_local_value this prompt h :
  unit_interval Math_random ->
  exists s h',
    retry_local Math_random this prompt h = (Returns (VString s), h')
    /\ degenerate s = false.
Proof.
  intros Hu. unfold retry_local.
  pose proof (local_value this prompt
                (h ++ [thinking_error; fallback_notice])%list) as L.
  destruct (thinkWithLocalModel _ _ _ _) as [[v|e] h'].
  - destruct (L v Hu eq_refl) as (s & -> & D). now exists s, h'.
  - destruct (getErrorResponse_run this (h' ++ [local_failed])%list Hu)
      as (s & -> & Hin).
    eexists s, _. split; [reflexivity|].
    now apply errorResponses_not_degenerate.
Qed.

Lemma count_app f (a b : History) :
  count f (a ++ b)%list = (count f a + count f b)%nat.
Proof. unfold count. now rewrite filter_app, length_app. Qed.

(** With local selected, [think] never consults the cloud collaborator. *)
Lemma think_local_selected_no_cloud this prompt h :
  useCloudAPI this = false ->
  exists new,
    snd (think Math_random this prompt h) = (h ++ new)%list
    /\ count is_chat new = 0%nat
    /\ existsb (fun ev => match ev with EvIsConfigured => true | _ => false end)
         new = false.
Proof.
  intros H. rewrite (think_local_selected _ _ _ H).
  destruct (llm this) as [pipeline|] eqn:E.
  - rewrite (thinkWithLocalModel_loaded _ _ _ _ E). cbv zeta.
    unfold getErrorResponse.
    destruct (pipeline _ _ _) as [[|first rest]|e];
      [| destruct (too_short_or_strange _) |];
      rewrite ?random_element_run; cbn [snd];
      rewrite <- ?app_assoc; cbn [app];
      (eexists; split; [reflexivity|]; split; reflexivity).
  - rewrite (thinkWithLocalModel_unloaded _ _ _ E). cbn [snd].
    exists []. rewrite app_nil_r. split; [reflexivity|]. split; reflexivity.
Qed.

(** The handler always ends in a reply. *)
Lemma retry_local_returns this prompt h :
  exists v h', retry_local Math_random this prompt h = (Returns v, h').
Proof.
  unfold retry_local.
  destruct (thinkWithLocalModel _ _ _ _) as [[v|e] h']; [now exists v, h'|].
  unfold getErrorResponse. rewrite random_element_run. eauto.
Qed.

(** [think] always resolves: no path ends in a rejection. *)
Lemma think_never_rejects this prompt h :
  exists v h', think Math_random this prompt h = (Returns v, h').
Proof.
  destruct (useCloudAPI this) eqn:U.
  - destruct (cloud_isConfigured (cloudAPI this) h) eqn:C.
    + rewrite (think_cloud_configured _ _ _ U C). cbv zeta.
      destruct (cloud_chat _ _ _); [eauto | apply retry_local_returns].
    + rewrite (think_cloud_unconfigured _ _ _ U C).
      destruct (thinkWithLocalModel _ _ _ _) as [[v|e] h'];
        [eauto | apply retry_local_returns].
  - rewrite (think_local_selected _ _ _ U).
    destruct (thinkWithLocalModel _ _ _ _) as [[v|e] h']; [eauto|].
    unfold getErrorResponse. rewrite random_element_run. eauto.
Qed.

End Runs.

(** ** The claims on [think] *)

(** C1, as stated, fails on the cloud path: with the cloud selected and
    configured, [think] returns the text of [cloudAPI.chat] as it comes, and
    an empty answer of the provider is an empty reply. *)
Lemma C1_cloud_reply_is_returned_unsanitized :
  unit_interval Scenarios.half
  /\ fst (think Scenarios.half
            (Scenarios.bella Scenarios.silent_cloud
               (Some Scenarios.friendly_pipeline) true)
            "hello" [])
     = Returns (VString EmptyString)
  /\ degenerate EmptyString = true.
Proof.
  split; [|split; reflexivity].
  intros h. unfold Scenarios.half. split; [discriminate | reflexivity].
Qed.

(** C1, amended: for every utterance [think] resolves to a string, and the
    string is non-empty, not a single period and not white space only unless
    it is the answer of a successful cloud chat call, which is returned as
    the provider gave it. *)
Theorem think_reply_not_degenerate_unless_cloud_text
    Math_random this utterance h :
  unit_interval Math_random ->
  exists s h',
    think Math_random this utterance h = (Returns (VString s), h')
    /\ (degenerate s = false
        \/ (useCloudAPI this = true
            /\ cloud_isConfigured (cloudAPI this) h = true
            /\ cloud_chat (cloudAPI this) (h ++ [EvIsConfigured])%list
                 (enhancePromptForMode this utterance false)
               = Returns s)).
Proof.
  intros Hu.
  destruct (useCloudAPI this) eqn:U.
  - destruct (cloud_isConfigured (cloudAPI this) h) eqn:C.
    + rewrite (think_cloud_configured _ _ _ _ U C). cbv zeta.
      destruct (cloud_chat _ _ _) as [s|e] eqn:K.
      * exists s. eexists. split; [reflexivity|]. right. now repeat split.
      * destruct (retry_local_value Math_random this utterance
                    (h ++ [EvIsConfigured;
                           EvChat (enhancePromptForMode this utterance false)])
                    Hu) as (s & h' & -> & D).
        exists s, h'. split; [reflexivity | now left].
    + rewrite (think_cloud_unconfigured _ _ _ _ U C).
      pose proof (local_value Math_random this utterance
                    (h ++ [EvIsConfigured])%list) as L.
      destruct (thinkWithLocalModel _ _ _ _) as [[v|e] h1].
      * destruct (L v Hu eq_refl) as (s & -> & D).
        exists s, h1. split; [reflexivity | now left].
      * destruct (retry_local_value Math_random this utterance h1 Hu)
          as (s & h' & -> & D).
        exists s, h'. split; [reflexivity | now left].
  - rewrite (think_local_selected _ _ _ _ U).
    pose proof (local_value Math_random this utterance h) as L.
    destruct (thinkWithLocalModel _ _ _ _) as [[v|e] h1].
    + destruct (L v Hu eq_refl) as (s & -> & D).
      exists s, h1. split; [reflexivity | now left].
    + destruct (getErrorResponse_run Math_random this
                  (h1 ++ [thinking_error])%list Hu) as (s & -> & Hin).
      exists s. eexists. split; [reflexivity|]. left.
      now apply errorResponses_not_degenerate.
Qed.

Lemma think_reply_not_degenerate_unless_cloud_text_witness :
  unit_interval Scenarios.half
  /\ exists s h',
       think Scenarios.half
         (Scenarios.bella Scenarios.unconfigured_cloud
            (Some Scenarios.echo_pipeline) true)
         EmptyString [] = (Returns (VString s), h')
       /\ degenerate s = false.
Proof.
  assert (Hu : unit_interval Scenarios.half).
  { intros h. unfold Scenarios.half. split; [discriminate | reflexivity]. }
  split; [exact Hu|].
  destruct (think_reply_not_degenerate_unless_cloud_text Scenarios.half
              (Scenarios.bella Scenarios.unconfigured_cloud
                 (Some Scenarios.echo_pipeline) true)
              EmptyString [] Hu) as (s & h' & Hrun & [D | (_ & C & _)]).
  - now exists s, h'.
  - cbn in C. discriminate C.
Defined.

(** C2: with the cloud selected and configured, a failing chat call is
    followed by exactly one run of the local path (one fallback notice, no
    further chat call, at most one generation: one when a model is loaded).
    The reply is what that run returns, or, when it fails too, a member of
    the fixed apology pool; in both cases [think] resolves, it never
    rejects. *)
Theorem think_cloud_failure_one_local_fallback
    Math_random this utterance h e :
  unit_interval Math_random ->
  useCloudAPI this = true ->
  cloud_isConfigured (cloudAPI this) h = true ->
  cloud_chat (cloudAPI this) (h ++ [EvIsConfigured])
    (enhancePromptForMode this utterance false) = Throws e ->
  let attempted :=
    h ++ [EvIsConfigured; EvChat (enhancePromptForMode this utterance false);
          thinking_error; fallback_notice] in
  exists reply new,
    think Math_random this utterance h
    = (Returns (VString reply), attempted ++ new)
    /\ count is_chat new = 0%nat
    /\ count is_fallback_notice new = 0%nat
    /\ count is_generate new
       = match llm this with Some _ => 1%nat | None => 0%nat end
    /\ match thinkWithLocalModel Math_random this utterance attempted with
       | (Returns v, h') => v = VString reply /\ h' = attempted ++ new
       | (Throws _, h') =>
           In reply errorResponses
           /\ h' ++ [local_failed; EvRandom] = attempted ++ new
       end.
Proof.
  intros Hu U C K attempted.
  rewrite (think_cloud_configured _ _ _ _ U C). cbv zeta. rewrite K.
  unfold retry_local. rewrite <- app_assoc. cbn [app]. fold attempted.
  destruct (local_trace Math_random this utterance attempted)
    as (new & Hnew & G & Ch & F).
  pose proof (local_value Math_random this utterance attempted) as L.
  destruct (thinkWithLocalModel _ _ _ attempted) as [[v|e'] h'];
    cbn [fst snd] in *; subst h'.
  - destruct (L v Hu eq_refl) as (s & -> & _).
    exists s, new. repeat split; assumption.
  - destruct (getErrorResponse_run Math_random this
                ((attempted ++ new) ++ [local_failed]) Hu) as (s & -> & Hin).
    exists s, (new ++ [local_failed; EvRandom]).
    rewrite !count_app, G, Ch, F.
    rewrite <- !app_assoc. cbn [app].
    repeat split; try assumption; try apply Nat.add_0_r.
Qed.

Lemma think_cloud_failure_one_local_fallback_witness :
  exists reply,
    fst (think Scenarios.half
           (Scenarios.bella Scenarios.failing_cloud
              (Some Scenarios.broken_pipeline) true)
           "hi" [])
    = Returns (VString reply)
    /\ In reply errorResponses.
Proof.
  assert (Hu : unit_interval Scenarios.half).
  { intros h. unfold Scenarios.half. split; [discriminate | reflexivity]. }
  destruct (think_cloud_failure_one_local_fallback Scenarios.half
              (Scenarios.bella Scenarios.failing_cloud
                 (Some Scenarios.broken_pipeline) true)
              "hi" [] (BackendFailure "HTTP 500") Hu eq_refl eq_refl eq_refl)
    as (reply & new & Hrun & _ & _ & _ & Hlocal).
  exists reply. rewrite Hrun. split; [reflexivity|].
  exact (proj1 Hlocal).
Defined.

(** ** The claims on the local path *)





(** Each local template of [enhancePromptForMode] spells out the fragment
    of its mode. *)
Lemma local_templates_carry_fragment this utterance :
  In (currentMode this) modes ->
  includes (enhancePromptForMode this utterance true)
    (mode_fragment (currentMode this)) = true.
Proof.
  intros H. unfold enhancePromptForMode.
  destruct H as [<-|[<-|[<-|[]]]]; cbn [lookup englishPrompts String.eqb
    Ascii.eqb Bool.eqb mode_fragment].
  - apply (includes_middle "You are Bella, a friendly AI. "
             "Have a natural conversation").
  - apply (includes_middle "You are Bella, a helpful AI assistant. "
             "Respond naturally").
  - apply (includes_middle "You are Bella, a creative AI companion. "
             "Chat naturally").
Qed.

(** The prompt that [thinkWithLocalModel] hands to the generator is built
    from the utterance alone: [currentMode] is not read. *)
Lemma local_prompt_is_fixed Math_random this pipeline utterance h :
  llm this = Some pipeline ->
  generate_prompts (snd (thinkWithLocalModel Math_random this utterance h))
  = generate_prompts h ++ [englishPrompt utterance].
Proof.
  intros E. rewrite (thinkWithLocalModel_loaded _ _ _ _ _ E). cbv zeta.
  destruct (pipeline _ _ _) as [[|first rest]|e];
    [| destruct (too_short_or_strange _) |];
    cbn [snd app]; unfold generate_prompts; now rewrite flat_map_app.
Qed.

(** C4, at a failing input: after [setChatMode('creative')] succeeds, the
    prompt sent to the local generator for the utterance [hi] is the fixed
    template of [thinkWithLocalModel]. It lacks the creative fragment (and
    the casual one), which only [enhancePromptForMode(prompt, true)] would
    have supplied; that call is never made. *)
Lemma C4_local_prompt_lacks_mode_fragment :
  fst (setChatMode
         (Scenarios.bella Scenarios.unconfigured_cloud
            (Some Scenarios.echo_pipeline) false)
         (VString "creative")) = true
  /\ generate_prompts
       (snd (think Scenarios.half
               (snd (setChatMode
                       (Scenarios.bella Scenarios.unconfigured_cloud
                          (Some Scenarios.echo_pipeline) false)
                       (VString "creative")))
               "hi" []))
     = [englishPrompt "hi"]
  /\ includes (englishPrompt "hi") (mode_fragment "creative") = false
  /\ includes (englishPrompt "hi") (mode_fragment "casual") = false
  /\ includes
       (enhancePromptForMode
          (snd (setChatMode
                  (Scenarios.bella Scenarios.unconfigured_cloud
                     (Some Scenarios.echo_pipeline) false)
                  (VString "creative")))
          "hi" true)
       (mode_fragment "creative") = true.
Proof. repeat split. Qed.

(** C5, at a failing input: the cloud is selected but not configured, and
    the first call of the generator fails. The handler sees the cloud flag
    and runs the local path a second time, whose answer is returned; with
    local selected the same failure ends in an apology after one call. *)
Lemma C5_unconfigured_cloud_retries_local_path :
  cloud_isConfigured Scenarios.unconfigured_cloud [] = false
  /\ fst (think Scenarios.half
            (Scenarios.bella Scenarios.unconfigured_cloud
               (Some Scenarios.flaky_pipeline) true)
            "hi" [])
     = Returns (VString "Hello there friend")
  /\ count is_generate
       (snd (think Scenarios.half
               (Scenarios.bella Scenarios.unconfigured_cloud
                  (Some Scenarios.flaky_pipeline) true)
               "hi" [])) = 2%nat
  /\ fst (think Scenarios.half
            (Scenarios.bella Scenarios.unconfigured_cloud
               (Some Scenarios.flaky_pipeline) false)
            "hi" [])
     = Returns
         (VString "My thoughts are a bit complex, I need time to organize them.")
  /\ count is_generate
       (snd (think Scenarios.half
               (Scenarios.bella Scenarios.unconfigured_cloud
                  (Some Scenarios.flaky_pipeline) false)
               "hi" [])) = 1%nat.
Proof. repeat split. Qed.

(** ** The claims on the setters *)

(** C6: [setChatMode] returns [true] exactly for the three modes, and then
    only [currentMode] changes, to the requested mode; for any other value
    it returns [false] and the object is unchanged. *)
Theorem setChatMode_accepts_exactly_three_modes this mode :
  match setChatMode this mode with
  | (true, this') =>
      exists m,
        mode = VString m
        /\ (m = "casual" \/ m = "assistant" \/ m = "creative")
        /\ currentMode this' = m
        /\ useCloudAPI this' = useCloudAPI this
        /\ llm this' = llm this
        /\ cloudAPI this' = cloudAPI this
  | (false, this') =>
      mode <> VString "casual" /\ mode <> VString "assistant"
      /\ mode <> VString "creative" /\ this' = this
  end.
Proof.
  unfold setChatMode. destruct mode as [m|]; cbn [array_includes].
  - destruct (existsb (String.eqb m) modes) eqn:E.
    + exists m. repeat split.
      apply existsb_exists in E as (x & Hin & Hx).
      apply String.eqb_eq in Hx. subst x.
      destruct Hin as [<-|[<-|[<-|[]]]]; auto.
    + assert (N : forall x, In x modes -> m <> x).
      { intros x Hin ->.
        assert (T : existsb (String.eqb x) modes = true)
          by (apply existsb_exists; exists x; split;
              [exact Hin | apply String.eqb_refl]).
        congruence. }
      repeat split; intros [= ->];
        [apply (N "casual") | apply (N "assistant") | apply (N "creative")];
        cbn; auto.
  - repeat split; discriminate.
Qed.

(** C7: [switchProvider('local')] returns [true] and clears the cloud flag.
    For any other provider the answer of [cloudAPI.switchProvider] is
    returned; the flag is set when that answer is [true], and the object is
    unchanged when it is [false]. *)
Theorem switchProvider_follows_collaborator this provider h :
  provider <> "local" ->
  (exists this',
      switchProvider this "local" h = ((true, this'), h)
      /\ useCloudAPI this' = false
      /\ currentMode this' = currentMode this)
  /\ (exists this',
         switchProvider this provider h
         = ((cloud_switchProvider (cloudAPI this) h provider, this'),
            h ++ [EvSwitchProvider provider])
         /\ useCloudAPI this'
            = (if cloud_switchProvider (cloudAPI this) h provider
               then true else useCloudAPI this)
         /\ (if cloud_switchProvider (cloudAPI this) h provider
             then currentMode this' = currentMode this
             else this' = this)).
Proof.
  intros Hp. split.
  - eexists. repeat split.
  - unfold switchProvider. apply String.eqb_neq in Hp. rewrite Hp.
    destruct (cloud_switchProvider _ _ _); eexists; repeat split.
Qed.

Lemma switchProvider_follows_collaborator_witness :
  "openai" <> "local"
  /\ switchProvider
       (Scenarios.bella Scenarios.unconfigured_cloud None false) "openai" []
     = ((false, Scenarios.bella Scenarios.unconfigured_cloud None false),
        [EvSwitchProvider "openai"]).
Proof.
  assert (Hp : "openai" <> "local") by discriminate.
  split; [exact Hp|].
  destruct (switchProvider_follows_collaborator
              (Scenarios.bella Scenarios.unconfigured_cloud None false)
              "openai" [] Hp) as (_ & this' & Hrun & _ & Hsame).
  cbn in Hsame. rewrite Hrun, Hsame. reflexivity.
Defined.

(** C10: [setAPIKey] and [clearHistory] return the object as it was, so
    [currentMode] and [useCloudAPI] are unchanged; an accepted key does not
    select the cloud, and [think] keeps to the local path until
    [switchProvider] sets the flag. *)
Theorem setAPIKey_clearHistory_frame this provider apiKey h :
  snd (fst (setAPIKey this provider apiKey h)) = this
  /\ snd (fst (clearHistory this h)) = this
  /\ currentMode (snd (fst (setAPIKey this provider apiKey h)))
     = currentMode this
  /\ useCloudAPI (snd (fst (setAPIKey this provider apiKey h)))
     = useCloudAPI this
  /\ currentMode (snd (fst (clearHistory this h))) = currentMode this
  /\ useCloudAPI (snd (fst (clearHistory this h))) = useCloudAPI this
  /\ (forall Math_random utterance,
         useCloudAPI this = false ->
         fst (fst (setAPIKey this provider apiKey h)) = true ->
         exists new,
           snd (think Math_random
                  (snd (fst (setAPIKey this provider apiKey h))) utterance
                  (snd (setAPIKey this provider apiKey h)))
           = snd (setAPIKey this provider apiKey h) ++ new
           /\ count is_chat new = 0%nat).
Proof.
  repeat split.
  intros Math_random utterance U _. cbn [setAPIKey fst snd].
  destruct (think_local_selected_no_cloud Math_random this utterance
              (h ++ [EvSetAPIKey provider apiKey]) U) as (new & Hn & Hc & _).
  now exists new.
Qed.

End CoreFacts.

(** * Facts about the WAV encoder *)

Module WavFacts.
Import Wav.
Local Open Scope Z_scope.

(** ** Bytes and the integers they spell *)

Lemma ascii_code_byte c :
  byte (ToUint8 (Z.of_nat (nat_of_ascii c))) 0 = Z.of_nat (nat_of_ascii c).
Proof.
  pose proof (nat_ascii_bounded c) as B.
  unfold byte, ToUint8.
  change (2 ^ (8 * Z.of_nat 0)) with 1. change (2 ^ 8) with 256.
  rewrite Z.div_1_r, Z.mod_mod by lia. apply Z.mod_small. lia.
Qed.

Lemma little_endian_2_value v :
  0 <= v < 2 ^ 16 -> byte v 0 + 2 ^ 8 * byte v 1 = v.
Proof.
  intros H. unfold byte.
  change (2 ^ (8 * Z.of_nat 0)) with 1. change (2 ^ (8 * Z.of_nat 1)) with 256.
  change (2 ^ 8) with 256. change (2 ^ 16) with 65536 in H.
  Z.div_mod_to_equations. lia.
Qed.

Lemma little_endian_4_value v :
  0 <= v < 2 ^ 32 ->
  byte v 0 + 2 ^ 8 * byte v 1 + 2 ^ 16 * (byte v 2 + 2 ^ 8 * byte v 3) = v.
Proof.
  intros H. unfold byte.
  change (2 ^ (8 * Z.of_nat 0)) with 1. change (2 ^ (8 * Z.of_nat 1)) with 256.
  change (2 ^ (8 * Z.of_nat 2)) with 65536.
  change (2 ^ (8 * Z.of_nat 3)) with 16777216.
  change (2 ^ 8) with 256. change (2 ^ 16) with 65536.
  change (2 ^ 32) with 4294967296 in H.
  Z.div_mod_to_equations. lia.
Qed.

(** The two bytes of a signed 16-bit integer read back as that integer. *)
Lemma little_endian_2_signed n :
  - 2 ^ 15 <= n < 2 ^ 15 ->
  (if 2 ^ 15 <=? byte n 0 + 2 ^ 8 * byte n 1
   then byte n 0 + 2 ^ 8 * byte n 1 - 2 ^ 16
   else byte n 0 + 2 ^ 8 * byte n 1) = n.
Proof.
  intros H. unfold byte.
  change (2 ^ (8 * Z.of_nat 0)) with 1. change (2 ^ (8 * Z.of_nat 1)) with 256.
  change (2 ^ 8) with 256. change (2 ^ 16) with 65536.
  change (2 ^ 15) with 32768 in *.
  destruct (Z.leb_spec 32768 (n / 1 mod 256 + 256 * (n / 256 mod 256)));
    Z.div_mod_to_equations; lia.
Qed.

(** ** Writing into the buffer *)

Lemma skipn_past (pre l : list Z) n :
  skipn (length pre + n) (pre ++ l) = skipn n l.
Proof. induction pre as [|b pre IH]; [reflexivity | exact IH]. Qed.

Lemma firstn_exact (pre l : list Z) : firstn (length pre) (pre ++ l) = pre.
Proof. induction pre as [|b pre IH]; cbn; [now destruct l | now rewrite IH]. Qed.

Lemma skipn_exact (old post : list Z) : skipn (length old) (old ++ post) = post.
Proof. induction old as [|b old IH]; [reflexivity | exact IH]. Qed.

(** A setter replaces the bytes it covers and nothing else. *)
Lemma set_bytes_at (pre old post bytes : list Z) :
  length old = length bytes ->
  set_bytes (length pre) bytes (pre ++ old ++ post)
  = Returns (pre ++ bytes ++ post).
Proof.
  intros L. unfold set_bytes.
  assert (F : (length pre + length bytes <=? length (pre ++ old ++ post))%nat
              = true).
  { apply Nat.leb_le. rewrite !length_app. lia. }
  rewrite F, firstn_exact, skipn_past, <- L, skipn_exact. reflexivity.
Qed.

Lemma header_written m len sampleRate :
  writeString 0 "RIFF" (new_ArrayBuffer (44 + m))
    >>= setUint32 4 (36 + len * 2)
    >>= writeString 8 "WAVE"
    >>= writeString 12 "fmt "
    >>= setUint32 16 16
    >>= setUint16 20 1
    >>= setUint16 22 1
    >>= setUint32 24 sampleRate
    >>= setUint32 28 (sampleRate * 2)
    >>= setUint16 32 2
    >>= setUint16 34 16
    >>= writeString 36 "data"
    >>= setUint32 40 (len * 2)
  = Returns (wav_header len sampleRate ++ repeat 0 m).
Proof.
  unfold new_ArrayBuffer.
  cbn [writeString setUint8 setUint16 setUint32 set_bytes andThen
       little_endian map seq repeat Nat.add Nat.leb length firstn skipn app].
  rewrite !ascii_code_byte. reflexivity.
Qed.

Lemma sample_bytes_length x : length (sample_bytes x) = 2%nat.
Proof. reflexivity. Qed.

Lemma write_samples_spec audioData : forall pre,
  write_samples audioData (length pre)
    (pre ++ repeat 0 (length audioData * 2))
  = Returns (pre ++ flat_map sample_bytes audioData).
Proof.
  induction audioData as [|x rest IH]; intros pre.
  - reflexivity.
  - cbn [write_samples length Nat.mul Nat.add repeat flat_map].
    unfold setInt16. fold (encode_sample x).
    change (0 :: 0 :: repeat 0 (length rest * 2))
      with ([0; 0] ++ repeat 0 (length rest * 2)).
    rewrite (set_bytes_at pre [0; 0] _ (little_endian 2 (encode_sample x)))
      by reflexivity.
    cbn [andThen]. fold (sample_bytes x).
    specialize (IH (pre ++ sample_bytes x)).
    rewrite length_app, sample_bytes_length in IH.
    rewrite <- !app_assoc in IH. exact IH.
Qed.

(** The whole container: the 44 header bytes, then two bytes per sample. The
    encoder never runs into a [RangeError]. *)
Lemma convertFloat32ArrayToWav_layout audioData sampleRate :
  convertFloat32ArrayToWav audioData sampleRate
  = Returns (wav_header (Z.of_nat (length audioData)) sampleRate
               ++ flat_map sample_bytes audioData).
Proof.
  unfold convertFloat32ArrayToWav. cbv zeta.
  rewrite header_written. cbn [andThen].
  apply (write_samples_spec audioData
           (wav_header (Z.of_nat (length audioData)) sampleRate)).
Qed.

(** ** One sample *)

Lemma truncate_comp x y : x == y -> truncate x = truncate y.
Proof.
  intros E. unfold truncate.
  rewrite (Qleb_comp 0%Q 0%Q (Qeq_refl 0%Q) x y E).
  now rewrite (Qfloor_comp x y E), (Qceiling_comp x y E).
Qed.

Lemma truncate_between y lo hi :
  (inject_Z lo <= y)%Q -> (y <= inject_Z hi)%Q -> lo <= 0 <= hi ->
  lo <= truncate y <= hi.
Proof.
  intros Hlo Hhi Hz. unfold truncate.
  destruct (Qle_bool 0%Q y) eqn:B.
  - apply Qle_bool_iff in B.
    apply Qfloor_resp_le in B, Hhi. rewrite Qfloor_Z in Hhi.
    change (Qfloor 0%Q) with 0 in B. lia.
  - assert (N : (y <= 0)%Q).
    { apply Qlt_le_weak, Qnot_le_lt. intros H.
      apply Qle_bool_iff in H. congruence. }
    apply Qceiling_resp_le in N, Hlo. rewrite Qceiling_Z in Hlo.
    change (Qceiling 0%Q) with 0 in N. lia.
Qed.


(** A finite sample is clamped to [-1, 1], then scaled by 32767. *)
Lemma convert_sample_finite q :
  exists c,
    convert_sample (Finite q) = Finite (c * inject_Z 32767)
    /\ c == clampQ q /\ (-1 <= c)%Q /\ (c <= 1)%Q.
Proof.
  unfold convert_sample, clampQ. cbn [Math_min].
  destruct (Qle_bool 1%Q q) eqn:A.
  - exists 1%Q. apply Qle_bool_iff in A.
    destruct (Qle_bool q (-1)%Q) eqn:B.
    + apply Qle_bool_iff in B.
      exfalso. apply (Qle_trans _ _ _ A) in B. now apply B.
    + repeat split; try reflexivity; discriminate.
  - assert (A' : (q <= 1)%Q).
    { apply Qlt_le_weak, Qnot_le_lt. intros H.
      apply Qle_bool_iff in H. congruence. }
    cbn [Math_max]. destruct (Qle_bool (-1)%Q q) eqn:B.
    + exists q. apply Qle_bool_iff in B.
      repeat split; try assumption.
      destruct (Qle_bool q (-1)%Q) eqn:C; [|reflexivity].
      apply Qle_bool_iff in C. now apply Qle_antisym.
    + exists (-1)%Q.
      assert (B' : (q <= -1)%Q).
      { apply Qlt_le_weak, Qnot_le_lt. intros H.
        apply Qle_bool_iff in H. congruence. }
      apply Qle_bool_iff in B'. rewrite B'.
      repeat split; try reflexivity; discriminate.
Qed.

Lemma scaled_between c :
  (-1 <= c)%Q -> (c <= 1)%Q ->
  (inject_Z (-32767) <= c * inject_Z 32767)%Q
  /\ (c * inject_Z 32767 <= inject_Z 32767)%Q.
Proof.
  intros Hlo Hhi. split.
  - setoid_replace (inject_Z (-32767)) with (-1 * inject_Z 32767)%Q
      by reflexivity.
    apply Qmult_le_compat_r; [exact Hlo | discriminate].
  - setoid_replace (inject_Z 32767) with (1 * inject_Z 32767)%Q at 2
      by reflexivity.
    apply Qmult_le_compat_r; [exact Hhi | discriminate].
Qed.

(** [ToInt16] leaves an integer of the 16-bit range as it is. *)
Lemma ToInt16_in_range q :
  -32767 <= truncate q <= 32767 -> ToInt16 (Finite q) = truncate q.
Proof.
  intros H. unfold ToInt16. cbv zeta.
  change (2 ^ 16) with 65536. change (2 ^ 15) with 32768.
  destruct (Z.leb_spec 32768 (truncate q mod 65536));
    Z.div_mod_to_equations; lia.
Qed.

Lemma encode_sample_finite q :
  exists c,
    c == clampQ q
    /\ convert_sample (Finite q) = Finite (c * inject_Z 32767)
    /\ encode_sample (Finite q) = truncate (c * inject_Z 32767)
    /\ -32767 <= truncate (c * inject_Z 32767) <= 32767.
Proof.
  destruct (convert_sample_finite q) as (c & E & Hc & Hlo & Hhi).
  destruct (scaled_between c Hlo Hhi) as [Slo Shi].
  assert (T : -32767 <= truncate (c * inject_Z 32767) <= 32767)
    by (apply truncate_between; [exact Slo | exact Shi | lia]).
  exists c. repeat split; try assumption; try apply T.
  unfold encode_sample. rewrite E. now apply ToInt16_in_range.
Qed.

Lemma encode_sample_range x : -32767 <= encode_sample x <= 32767.
Proof.
  destruct x as [q| | |].
  - destruct (encode_sample_finite q) as (c & _ & _ & -> & T). exact T.
  - now vm_compute.
  - now vm_compute.
  - now vm_compute.
Qed.

(** ** Reading the container *)

Lemma flat_map_sample_bytes_length audioData :
  length (flat_map sample_bytes audioData) = (length audioData * 2)%nat.
Proof.
  induction audioData as [|x rest IH]; [reflexivity|].
  cbn [flat_map length Nat.mul Nat.add].
  rewrite length_app, sample_bytes_length, IH. reflexivity.
Qed.

Lemma sample_bytes_at audioData : forall i x,
  nth_error audioData i = Some x ->
  nth (i * 2) (flat_map sample_bytes audioData) 0 = byte (encode_sample x) 0
  /\ nth (i * 2 + 1) (flat_map sample_bytes audioData) 0
     = byte (encode_sample x) 1.
Proof.
  induction audioData as [|y rest IH]; intros [|i] x H;
    try discriminate H.
  - injection H as ->. split; reflexivity.
  - apply (IH i x H).
Qed.

Lemma sample_read pre audioData i x :
  nth_error audioData i = Some x ->
  getInt16 (pre ++ flat_map sample_bytes audioData) (length pre + i * 2)
  = encode_sample x.
Proof.
  intros H. destruct (sample_bytes_at audioData i x H) as [B0 B1].
  unfold getInt16, getUint16, getUint8.
  replace (length pre + i * 2 + 1)%nat with (length pre + (i * 2 + 1))%nat
    by lia.
  rewrite !app_nth2_plus, B0, B1.
  apply little_endian_2_signed.
  pose proof (encode_sample_range x). change (2 ^ 15) with 32768. lia.
Qed.

Lemma ToUint32_bounds n : 0 <= ToUint32 n < 2 ^ 32.
Proof. unfold ToUint32. apply Z.mod_pos_bound. reflexivity. Qed.

(** The header fields, read back from a container, for any length and any
    sample rate: each 32-bit field holds its value modulo [2^32]. *)
Lemma header_fields len sampleRate body :
  getTag (wav_header len sampleRate ++ body) 0 = tag "RIFF"
  /\ getUint32 (wav_header len sampleRate ++ body) 4 = ToUint32 (36 + len * 2)
  /\ getTag (wav_header len sampleRate ++ body) 8 = tag "WAVE"
  /\ getTag (wav_header len sampleRate ++ body) 12 = tag "fmt "
  /\ getUint32 (wav_header len sampleRate ++ body) 16 = 16
  /\ getUint16 (wav_header len sampleRate ++ body) 20 = 1
  /\ getUint16 (wav_header len sampleRate ++ body) 22 = 1
  /\ getUint32 (wav_header len sampleRate ++ body) 24 = ToUint32 sampleRate
  /\ getUint32 (wav_header len sampleRate ++ body) 28
     = ToUint32 (sampleRate * 2)
  /\ getUint16 (wav_header len sampleRate ++ body) 32 = 2
  /\ getUint16 (wav_header len sampleRate ++ body) 34 = 16
  /\ getTag (wav_header len sampleRate ++ body) 36 = tag "data"
  /\ getUint32 (wav_header len sampleRate ++ body) 40 = ToUint32 (len * 2).
Proof.
  unfold getTag, getUint32, getUint16, getUint8.
  cbn [wav_header tag little_endian map seq app list_ascii_of_string
       nth skipn firstn Nat.add].
  repeat split;
    try (apply little_endian_4_value, ToUint32_bounds).
Qed.

(** ** The claims on the encoder *)

(** C8, as stated, fails for a sample rate that does not fit the 32-bit
    fields: [setUint32] stores its argument modulo [2^32], so at the rate
    [2^32] the rate field and the byte-rate field both read 0. *)
Lemma C8_rate_fields_hold_32_bits_only :
  exists buffer,
    convertFloat32ArrayToWav [Finite 0] 4294967296 = Returns buffer
    /\ getUint32 buffer 24 = 0
    /\ getUint32 buffer 28 = 0.
Proof.
  eexists. split; [vm_compute; reflexivity|].
  split; vm_compute; reflexivity.
Qed.

(** C8, amended: for [N] samples with [36 + 2N < 2^32] and a sample rate
    with [0 <= sampleRate] and [2 * sampleRate < 2^32], the encoder returns
    exactly [44 + 2N] bytes: the tags [RIFF], [WAVE], [fmt ] and [data] at
    offsets 0, 8, 12 and 36, and in little-endian order [36 + 2N] at 4, 16
    at 16, 1 at 20, 1 at 22, the rate at 24, twice the rate at 28, 2 at 32,
    16 at 34, [2N] at 40, then the [N] signed 16-bit samples from offset
    44. *)
Theorem wav_container_layout audioData sampleRate :
  36 + 2 * Z.of_nat (length audioData) < 2 ^ 32 ->
  0 <= sampleRate ->
  sampleRate * 2 < 2 ^ 32 ->
  exists buffer,
    convertFloat32ArrayToWav audioData sampleRate = Returns buffer
    /\ Z.of_nat (length buffer) = 44 + 2 * Z.of_nat (length audioData)
    /\ getTag buffer 0 = tag "RIFF"
    /\ getUint32 buffer 4 = 36 + 2 * Z.of_nat (length audioData)
    /\ getTag buffer 8 = tag "WAVE"
    /\ getTag buffer 12 = tag "fmt "
    /\ getUint32 buffer 16 = 16
    /\ getUint16 buffer 20 = 1
    /\ getUint16 buffer 22 = 1
    /\ getUint32 buffer 24 = sampleRate
    /\ getUint32 buffer 28 = sampleRate * 2
    /\ getUint16 buffer 32 = 2
    /\ getUint16 buffer 34 = 16
    /\ getTag buffer 36 = tag "data"
    /\ getUint32 buffer 40 = 2 * Z.of_nat (length audioData)
    /\ skipn 44 buffer = flat_map sample_bytes audioData
    /\ (forall i x,
           nth_error audioData i = Some x ->
           getInt16 buffer (44 + i * 2) = encode_sample x).
Proof.
  intros HN Hlo Hhi.
  rewrite convertFloat32ArrayToWav_layout. eexists. split; [reflexivity|].
  pose proof (Zle_0_nat (length audioData)) as Hpos.
  assert (M1 : ToUint32 (36 + Z.of_nat (length audioData) * 2)
               = 36 + 2 * Z.of_nat (length audioData)).
  { unfold ToUint32. rewrite Z.mod_small; lia. }
  assert (M2 : ToUint32 sampleRate = sampleRate).
  { unfold ToUint32. rewrite Z.mod_small; lia. }
  assert (M3 : ToUint32 (sampleRate * 2) = sampleRate * 2).
  { unfold ToUint32. rewrite Z.mod_small; lia. }
  assert (M4 : ToUint32 (Z.of_nat (length audioData) * 2)
               = 2 * Z.of_nat (length audioData)).
  { unfold ToUint32. rewrite Z.mod_small; lia. }
  destruct (header_fields (Z.of_nat (length audioData)) sampleRate
              (flat_map sample_bytes audioData))
    as (F0 & F4 & F8 & F12 & F16 & F20 & F22 & F24 & F28 & F32 & F34
        & F36 & F40).
  rewrite M1 in F4. rewrite M2 in F24. rewrite M3 in F28. rewrite M4 in F40.
  split.
  { rewrite length_app, flat_map_sample_bytes_length.
    change (length (wav_header (Z.of_nat (length audioData)) sampleRate))
      with 44%nat. lia. }
  repeat (split; [assumption|]).
  split.
  - apply (skipn_exact (wav_header (Z.of_nat (length audioData)) sampleRate)).
  - intros i x H.
    apply (sample_read (wav_header (Z.of_nat (length audioData)) sampleRate)
             audioData i x H).
Qed.

(** The round trip of the specification: three samples at 16 kHz give 50
    bytes with the samples 0, 32767 and -32767. *)
Lemma wav_container_layout_witness :
  exists buffer,
    convertFloat32ArrayToWav [Finite 0; Finite 1; Finite (-1)] 16000
    = Returns buffer
    /\ Z.of_nat (length buffer) = 50
    /\ getUint32 buffer 24 = 16000
    /\ getInt16 buffer 46 = 32767
    /\ getInt16 buffer 48 = -32767.
Proof.
  destruct (wav_container_layout [Finite 0; Finite 1; Finite (-1)] 16000)
    as (buffer & Hrun & Hlen & _ & _ & _ & _ & _ & _ & _ & Hrate & _ & _ & _
        & _ & _ & _ & Hsample);
    [reflexivity | discriminate | reflexivity |].
  exists buffer. split; [exact Hrun|]. split; [exact Hlen|].
  split; [exact Hrate|].
  pose proof (Hsample 1%nat (Finite 1) eq_refl) as H1.
  pose proof (Hsample 2%nat (Finite (-1)) eq_refl) as H2.
  cbn [Nat.add Nat.mul] in H1, H2. rewrite H1, H2.
  split; vm_compute; reflexivity.
Defined.


End WavFacts.

(** * More facts about [think] and the setters *)

Module SessionFacts.
Import JSString JSStringFacts Core CoreFacts Session.
Local Open Scope string_scope.
Local Open Scope list_scope.

(** ** Every path of [think], with its calls *)

Ltac finish_path :=
  rewrite <- ?app_assoc; cbn [app];
  do 2 eexists; split; [reflexivity|];
  unfold count;
  cbn [filter is_chat is_isConfigured is_generate is_random List.length
       thinking_error fallback_notice local_failed];
  repeat match goal with
         | |- _ /\ _ => split
         | |- _ -> _ => intros ?
         end;
  first [lia | congruence].

Ltac split_local :=
  match goal with
  | |- context [match ?p ?h ?q decoding with _ => _ end] =>
      destruct (p h q decoding) as [[|? ?]|?]
  end;
  try match goal with
  | |- context [if too_short_or_strange ?x then _ else _] =>
      destruct (too_short_or_strange x)
  end.

Lemma think_profile Math_random this prompt h :
  exists reply new,
    think Math_random this prompt h = (Returns reply, h ++ new)
    /\ (count is_chat new <= 1)%nat
    /\ (count is_isConfigured new <= 1)%nat
    /\ (count is_generate new <= 2)%nat
    /\ (count is_random new <= 1)%nat
    /\ (useCloudAPI this = false ->
        count is_chat new = 0%nat /\ count is_isConfigured new = 0%nat
        /\ (count is_generate new <= 1)%nat)
    /\ (llm this = None ->
        count is_generate new = 0%nat /\ count is_random new = 0%nat)
    /\ (useCloudAPI this = true ->
        cloud_isConfigured (cloudAPI this) h = true ->
        count is_chat new = 1%nat)
    /\ (cloud_isConfigured (cloudAPI this) h = false ->
        count is_chat new = 0%nat).
Proof.
  destruct (useCloudAPI this) eqn:U.
  - destruct (cloud_isConfigured (cloudAPI this) h) eqn:C.
    + rewrite (think_cloud_configured _ _ _ _ U C). cbv zeta.
      destruct (cloud_chat _ _ _) as [s|e].
      * finish_path.
      * unfold retry_local, getErrorResponse.
        destruct (llm this) as [pipeline|] eqn:E.
        -- rewrite (thinkWithLocalModel_loaded _ _ _ _ _ E). cbv zeta.
           split_local; rewrite ?random_element_run;
             finish_path.
        -- rewrite (thinkWithLocalModel_unloaded _ _ _ _ E).
           finish_path.
    + rewrite (think_cloud_unconfigured _ _ _ _ U C).
      unfold retry_local, getErrorResponse.
      destruct (llm this) as [pipeline|] eqn:E.
      * rewrite (thinkWithLocalModel_loaded _ _ _ _ _ E). cbv zeta.
        split_local; try (finish_path);
          rewrite (thinkWithLocalModel_loaded _ _ _ _ _ E); cbv zeta;
          split_local; rewrite ?random_element_run;
          finish_path.
      * rewrite (thinkWithLocalModel_unloaded _ _ _ _ E).
        finish_path.
  - rewrite (think_local_selected _ _ _ _ U). unfold getErrorResponse.
    destruct (llm this) as [pipeline|] eqn:E.
    + rewrite (thinkWithLocalModel_loaded _ _ _ _ _ E). cbv zeta.
      split_local; rewrite ?random_element_run; finish_path.
    + rewrite (thinkWithLocalModel_unloaded _ _ _ _ E).
      exists (VString placeholder), []. rewrite app_nil_r.
      repeat split; cbn; first [lia | congruence].
Qed.

(** X1: [think] resolves on every path, whatever the collaborators and
    [Math.random] do, and one call costs at most one [isConfigured], one
    [chat], two generations and one random draw; the trace before the call
    is kept. *)
Theorem think_replies_within_call_budget Math_random this utterance h :
  exists reply new,
    think Math_random this utterance h = (Returns reply, h ++ new)
    /\ (count is_isConfigured new <= 1)%nat
    /\ (count is_chat new <= 1)%nat
    /\ (count is_generate new <= 2)%nat
    /\ (count is_random new <= 1)%nat.
Proof.
  destruct (think_profile Math_random this utterance h)
    as (reply & new & Hrun & Hc & Hi & Hg & Hr & _).
  exists reply, new. repeat split; assumption.
Qed.

(** X2: after [switchProvider('local')], from any state, [think] keeps away
    from the cloud collaborator: no [isConfigured], no [chat], and at most
    one generation. *)
Theorem think_after_local_switch_is_offline Math_random this utterance h :
  exists reply new,
    think Math_random (snd (fst (switchProvider this "local" h))) utterance h
    = (Returns reply, h ++ new)
    /\ count is_isConfigured new = 0%nat
    /\ count is_chat new = 0%nat
    /\ (count is_generate new <= 1)%nat.
Proof.
  destruct (think_profile Math_random
              (snd (fst (switchProvider this "local" h))) utterance h)
    as (reply & new & Hrun & _ & _ & _ & _ & Hlocal & _).
  destruct (Hlocal eq_refl) as (Hc & Hi & Hg).
  exists reply, new. repeat split; assumption.
Qed.

(** X3: when the cloud is selected and configured and [chat] answers, the
    answer is the reply, the prompt sent is the cloud template around the
    utterance, and nothing else happens: no generation, no random draw, no
    console message. *)
Theorem think_cloud_answer_is_passed_through
    Math_random this utterance h answer :
  useCloudAPI this = true ->
  cloud_isConfigured (cloudAPI this) h = true ->
  cloud_chat (cloudAPI this) (h ++ [EvIsConfigured])
    ("You are Bella, a friendly AI assistant. Please respond naturally and conversationally in English."
       ++ newline ++ newline ++ "User: " ++ utterance ++ newline ++ "Bella:")%string
  = Returns answer ->
  think Math_random this utterance h
  = (Returns (VString answer),
     h ++ [EvIsConfigured;
           EvChat
             ("You are Bella, a friendly AI assistant. Please respond naturally and conversationally in English."
                ++ newline ++ newline ++ "User: " ++ utterance ++ newline
                ++ "Bella:")%string]).
Proof.
  intros U C K. rewrite (think_cloud_configured _ _ _ _ U C). cbv zeta.
  change (enhancePromptForMode this utterance false)
    with ("You are Bella, a friendly AI assistant. Please respond naturally and conversationally in English."
            ++ newline ++ newline ++ "User: " ++ utterance ++ newline
            ++ "Bella:")%string.
  now rewrite K.
Qed.

Lemma think_cloud_answer_is_passed_through_witness :
  fst (think Scenarios.half
         (Scenarios.bella Scenarios.silent_cloud
            (Some Scenarios.broken_pipeline) true)
         "hi" [])
  = Returns (VString EmptyString).
Proof.
  rewrite (think_cloud_answer_is_passed_through Scenarios.half
             (Scenarios.bella Scenarios.silent_cloud
                (Some Scenarios.broken_pipeline) true)
             "hi" [] EmptyString eq_refl eq_refl eq_refl).
  reflexivity.
Defined.

(** X4: [currentMode] has no effect on [think]: after any [setChatMode]
    call, accepted or not, [think] gives the same reply and makes the same
    calls with the same prompts as before it. *)
Theorem think_ignores_setChatMode Math_random this mode utterance h :
  think Math_random (snd (setChatMode this mode)) utterance h
  = think Math_random this utterance h.
Proof.
  unfold setChatMode.
  destruct (array_includes modes mode); destruct mode; reflexivity.
Qed.

(** X5: while no model is loaded, [think] never generates and never draws:
    the reply is the placeholder, or the answer of a successful cloud chat;
    a failed cloud call ends in the placeholder, not in an apology. *)
Theorem think_without_model Math_random this utterance h :
  llm this = None ->
  exists s new,
    think Math_random this utterance h = (Returns (VString s), h ++ new)
    /\ count is_generate new = 0%nat
    /\ count is_random new = 0%nat
    /\ (s = placeholder
        \/ cloud_chat (cloudAPI this) (h ++ [EvIsConfigured])
             (enhancePromptForMode this utterance false) = Returns s).
Proof.
  intros E.
  destruct (useCloudAPI this) eqn:U.
  - destruct (cloud_isConfigured (cloudAPI this) h) eqn:C.
    + rewrite (think_cloud_configured _ _ _ _ U C). cbv zeta.
      destruct (cloud_chat _ _ _) as [s|e] eqn:K.
      * exists s. eexists. split; [reflexivity|]. repeat split. now right.
      * unfold retry_local.
        rewrite (thinkWithLocalModel_unloaded _ _ _ _ E).
        rewrite <- app_assoc. cbn [app].
        exists placeholder. eexists. split; [reflexivity|].
        repeat split. now left.
    + rewrite (think_cloud_unconfigured _ _ _ _ U C).
      rewrite (thinkWithLocalModel_unloaded _ _ _ _ E).
      exists placeholder. eexists. split; [reflexivity|].
      repeat split. now left.
  - rewrite (think_local_selected _ _ _ _ U).
    rewrite (thinkWithLocalModel_unloaded _ _ _ _ E).
    exists placeholder, []. rewrite app_nil_r. repeat split. now left.
Qed.

Lemma think_without_model_witness :
  fst (think Scenarios.half
         (Scenarios.bella Scenarios.failing_cloud None true) "hi" [])
  = Returns (VString placeholder).
Proof.
  destruct (think_without_model Scenarios.half
              (Scenarios.bella Scenarios.failing_cloud None true) "hi" []
              eq_refl) as (s & new & Hrun & _ & _ & [-> | K]).
  - now rewrite Hrun.
  - discriminate K.
Defined.

(** ** States reachable from the constructor *)

Lemma setChatMode_keeps_mode_valid this mode :
  In (currentMode this) modes ->
  In (currentMode (snd (setChatMode this mode))) modes.
Proof.
  intros H. unfold setChatMode.
  destruct (array_includes modes mode) eqn:A; [|exact H].
  destruct mode as [m|]; [|exact H].
  cbn [array_includes] in A. apply existsb_exists in A as (x & Hin & Hx).
  apply String.eqb_eq in Hx. now subst x.
Qed.

Lemma step_frame s op :
  cloudAPI (fst (step s op)) = cloudAPI (fst s)
  /\ llm (fst (step s op)) = llm (fst s)
  /\ (In (currentMode (fst s)) modes ->
      In (currentMode (fst (step s op))) modes).
Proof.
  destruct s as [this h], op as [mode|provider|provider apiKey|];
    cbn [step fst snd].
  - unfold setChatMode.
    pose proof (setChatMode_keeps_mode_valid this mode) as K.
    unfold setChatMode in K.
    destruct (array_includes modes mode); destruct mode; repeat split; auto.
  - unfold switchProvider.
    destruct (String.eqb provider "local"); [repeat split; auto|].
    destruct (cloud_switchProvider _ _ _); repeat split; auto.
  - repeat split; auto.
  - repeat split; auto.
Qed.

(** X6: in every state reached from the constructor by calls of
    [setChatMode], [switchProvider], [setAPIKey] and [clearHistory], with
    any arguments, [currentMode] is one of the three modes, and the
    collaborator and the model are those the object started with. The
    lookup of [enhancePromptForMode] therefore always finds a template: its
    casual default is never taken. *)
Theorem reachable_mode_is_valid cloud model h0 ops utterance :
  In (currentMode (fst (run ops (new_BellaAI cloud model, h0)))) modes
  /\ cloudAPI (fst (run ops (new_BellaAI cloud model, h0))) = cloud
  /\ llm (fst (run ops (new_BellaAI cloud model, h0))) = model
  /\ lookup (currentMode (fst (run ops (new_BellaAI cloud model, h0))))
       (englishPrompts utterance)
     = Some (enhancePromptForMode
               (fst (run ops (new_BellaAI cloud model, h0))) utterance true).
Proof.
  assert (G : forall s,
             In (currentMode (fst s)) modes ->
             In (currentMode (fst (run ops s))) modes
             /\ cloudAPI (fst (run ops s)) = cloudAPI (fst s)
             /\ llm (fst (run ops s)) = llm (fst s)).
  { unfold run. induction ops as [|op ops IH]; intros s Hs.
    - now repeat split.
    - cbn [fold_left].
      destruct (step_frame s op) as (Hc & Hl & Hm).
      destruct (IH (step s op) (Hm Hs)) as (Im & Ic & Il).
      repeat split; [exact Im | now rewrite Ic | now rewrite Il]. }
  destruct (G (new_BellaAI cloud model, h0)) as (Hm & Hc & Hl);
    [cbn; auto|].
  repeat split; try assumption.
  unfold enhancePromptForMode.
  destruct Hm as [<-|[<-|[<-|[]]]]; reflexivity.
Qed.

Lemma accepted_switch_app cloud h tail :
  accepted_switch cloud h -> accepted_switch cloud (h ++ tail).
Proof.
  intros (pre & provider & post & -> & Hp & Hs).
  exists pre, provider, (post ++ tail). rewrite <- app_assoc. now split.
Qed.

Lemma step_selection cloud s op :
  cloudAPI (fst s) = cloud ->
  (useCloudAPI (fst s) = true -> accepted_switch cloud (snd s)) ->
  useCloudAPI (fst (step s op)) = true ->
  accepted_switch cloud (snd (step s op)).
Proof.
  destruct s as [this h], op as [mode|provider|provider apiKey|];
    cbn [step fst snd]; intros Hc Hs.
  - unfold setChatMode.
    destruct (array_includes modes mode); destruct mode; exact Hs.
  - unfold switchProvider.
    destruct (String.eqb provider "local") eqn:L; cbn [fst snd];
      [discriminate|].
    destruct (cloud_switchProvider (cloudAPI this) h provider) eqn:A;
      cbn [fst snd].
    + intros _. exists h, provider, []. repeat split.
      * now apply String.eqb_neq.
      * now rewrite <- Hc.
    + intros U. now apply accepted_switch_app, Hs.
  - intros U. now apply accepted_switch_app, Hs.
  - intros U. now apply accepted_switch_app, Hs.
Qed.

(** X7: if the cloud is selected in a state reached from the constructor,
    then somewhere in the trace a [switchProvider] call for a provider
    other than [local] was accepted by the collaborator. Keys, modes and the
    collaborator's own state never select the cloud. *)
Theorem cloud_selected_only_by_accepted_switch cloud model ops :
  useCloudAPI (fst (run ops (new_BellaAI cloud model, []))) = true ->
  exists pre provider post,
    snd (run ops (new_BellaAI cloud model, []))
    = pre ++ EvSwitchProvider provider :: post
    /\ provider <> "local"
    /\ cloud_switchProvider cloud pre provider = true.
Proof.
  assert (G : forall s,
             cloudAPI (fst s) = cloud ->
             (useCloudAPI (fst s) = true -> accepted_switch cloud (snd s)) ->
             useCloudAPI (fst (run ops s)) = true ->
             accepted_switch cloud (snd (run ops s))).
  { unfold run. induction ops as [|op ops IH]; intros s Hc Hs.
    - exact Hs.
    - cbn [fold_left]. apply IH.
      + now rewrite (proj1 (step_frame s op)).
      + now apply step_selection. }
  apply G; [reflexivity | discriminate].
Qed.

Lemma cloud_selected_only_by_accepted_switch_witness :
  exists pre provider post,
    snd (run [SetAPIKey "openai" "sk-1"; SwitchProvider "openai";
              SetChatMode (VString "creative")]
           (new_BellaAI Scenarios.silent_cloud None, []))
    = pre ++ EvSwitchProvider provider :: post
    /\ provider <> "local"
    /\ cloud_switchProvider Scenarios.silent_cloud pre provider = true.
Proof.
  exact (cloud_selected_only_by_accepted_switch Scenarios.silent_cloud None
           [SetAPIKey "openai" "sk-1"; SwitchProvider "openai";
            SetChatMode (VString "creative")] eq_refl).
Defined.

(** ** [getCurrentConfig] *)

(** X8: [getCurrentConfig] tells which path [think] takes from the same
    point: [think] calls [chat], once, exactly when the configuration
    reports both [useCloudAPI] and [isConfigured]; with local selected the
    configuration names the local model, reports [isConfigured = true] and
    leaves no call in the trace. *)
Theorem getCurrentConfig_predicts_think
    getCurrentProvider Math_random this utterance h :
  (exists reply new,
      think Math_random this utterance h = (Returns reply, h ++ new)
      /\ count is_chat new
         = if config_useCloudAPI (fst (getCurrentConfig getCurrentProvider this h))
              && config_isConfigured
                   (fst (getCurrentConfig getCurrentProvider this h))
           then 1%nat else 0%nat)
  /\ config_mode (fst (getCurrentConfig getCurrentProvider this h))
     = currentMode this
  /\ (if config_useCloudAPI (fst (getCurrentConfig getCurrentProvider this h))
      then snd (getCurrentConfig getCurrentProvider this h)
           = h ++ [EvIsConfigured]
      else getCurrentConfig getCurrentProvider this h
           = ({| config_useCloudAPI := false;
                 config_provider :=
                   {| name := "local"; model := "LaMini-Flan-T5-77M" |};
                 config_mode := currentMode this;
                 config_isConfigured := true |}, h)).
Proof.
  destruct (think_profile Math_random this utterance h)
    as (reply & new & Hrun & _ & _ & _ & _ & Hlocal & _ & Hcloud & Hnot).
  unfold getCurrentConfig. cbn [fst snd config_useCloudAPI
    config_isConfigured config_mode].
  destruct (useCloudAPI this) eqn:U.
  - split; [|split; reflexivity].
    exists reply, new. split; [exact Hrun|]. cbn [andb].
    destruct (cloud_isConfigured (cloudAPI this) h) eqn:C; auto.
  - split; [|split; reflexivity].
    exists reply, new. split; [exact Hrun|]. cbn [andb].
    now destruct (Hlocal eq_refl).
Qed.

End SessionFacts.

(** * More facts about the WAV encoder *)

Module WavMoreFacts.
Import Wav WavFacts.
Local Open Scope Z_scope.

Lemma truncate_mono x y : (x <= y)%Q -> truncate x <= truncate y.
Proof.
  intros H. unfold truncate.
  destruct (Qle_bool 0%Q x) eqn:X, (Qle_bool 0%Q y) eqn:Y.
  - now apply Qfloor_resp_le.
  - apply Qle_bool_iff in X.
    assert (Y' : Qle_bool 0%Q y = true)
      by (apply Qle_bool_iff; now apply Qle_trans with x).
    congruence.
  - assert (X' : (x <= 0)%Q).
    { apply Qlt_le_weak, Qnot_le_lt. intros K.
      apply Qle_bool_iff in K. congruence. }
    apply Qle_bool_iff in Y.
    apply Qceiling_resp_le in X'. apply Qfloor_resp_le in Y.
    change (Qceiling 0%Q) with 0 in X'. change (Qfloor 0%Q) with 0 in Y. lia.
  - now apply Qceiling_resp_le.
Qed.

Lemma clampQ_mono p q : (p <= q)%Q -> (clampQ p <= clampQ q)%Q.
Proof.
  intros H. unfold clampQ.
  assert (N : forall a b, Qle_bool a b = false -> (b <= a)%Q).
  { intros a b K. apply Qlt_le_weak, Qnot_le_lt. intros L.
    apply Qle_bool_iff in L. congruence. }
  destruct (Qle_bool p (-1)%Q) eqn:P1, (Qle_bool q (-1)%Q) eqn:Q1;
    try apply Qle_bool_iff in P1; try apply Qle_bool_iff in Q1;
    try apply N in P1; try apply N in Q1.
  - apply Qle_refl.
  - destruct (Qle_bool 1%Q q) eqn:Q2; [discriminate | exact Q1].
  - destruct (Qle_bool 1%Q p) eqn:P2.
    + apply Qle_bool_iff in P2. exfalso.
      assert (T : (1 <= -1)%Q)
        by (eapply Qle_trans; [exact P2 | eapply Qle_trans; eassumption]).
      now apply T.
    + eapply Qle_trans; eassumption.
  - destruct (Qle_bool 1%Q p) eqn:P2, (Qle_bool 1%Q q) eqn:Q2;
      try apply Qle_bool_iff in P2; try apply Qle_bool_iff in Q2;
      try apply N in P2; try apply N in Q2.
    + apply Qle_refl.
    + eapply Qle_trans; [exact P2 | exact H].
    + exact P2.
    + exact H.
Qed.

(** X9: the conversion preserves order: a louder finite sample is never
    stored as a smaller integer, clamped values included. *)
Theorem encode_sample_monotone p q :
  (p <= q)%Q -> encode_sample (Finite p) <= encode_sample (Finite q).
Proof.
  intros H.
  destruct (encode_sample_finite p) as (c & Hc & _ & -> & _).
  destruct (encode_sample_finite q) as (d & Hd & _ & -> & _).
  apply truncate_mono.
  apply Qmult_le_compat_r; [|discriminate].
  rewrite Hc, Hd. now apply clampQ_mono.
Qed.

Lemma encode_sample_monotone_witness :
  encode_sample (Finite (-3 # 2)) <= encode_sample (Finite (1 # 3)).
Proof.
  apply (encode_sample_monotone (-3 # 2) (1 # 3)). discriminate.
Defined.

Lemma Qle_bool_opp a b : Qle_bool (- a) (- b) = Qle_bool b a.
Proof.
  destruct (Qle_bool b a) eqn:E.
  - apply Qle_bool_iff in E. apply Qle_bool_iff. now apply Qopp_le_compat.
  - destruct (Qle_bool (- a) (- b)) eqn:F; [|reflexivity].
    apply Qle_bool_iff in F. apply Qopp_le_compat in F.
    rewrite !Qopp_involutive in F. apply Qle_bool_iff in F. congruence.
Qed.

Lemma truncate_opp y : truncate (- y) = - truncate y.
Proof.
  unfold truncate.
  change 0%Q with (- 0)%Q at 1. rewrite Qle_bool_opp.
  destruct (Qle_bool y 0%Q) eqn:A, (Qle_bool 0%Q y) eqn:B.
  - apply Qle_bool_iff in A, B.
    assert (E : (y == 0)%Q) by now apply Qle_antisym.
    assert (E' : (- y == 0)%Q) by now rewrite E.
    now rewrite (Qfloor_comp _ _ E), (Qfloor_comp _ _ E').
  - unfold Qceiling. lia.
  - unfold Qceiling.
    now rewrite (Qfloor_comp _ _ (Qopp_involutive y)).
  - exfalso.
    assert (K : (0 <= y)%Q).
    { apply Qlt_le_weak, Qnot_le_lt. intros L.
      apply Qle_bool_iff in L. congruence. }
    apply Qle_bool_iff in K. congruence.
Qed.

Lemma clampQ_opp q : (clampQ (- q) == - clampQ q)%Q.
Proof.
  unfold clampQ.
  change (-1)%Q with (- (1))%Q at 1. rewrite Qle_bool_opp.
  change 1%Q with (- (-1))%Q at 2. rewrite Qle_bool_opp.
  destruct (Qle_bool 1%Q q) eqn:A, (Qle_bool q (-1)%Q) eqn:B;
    try reflexivity.
  apply Qle_bool_iff in A, B. exfalso.
  assert (T : (1 <= -1)%Q) by (eapply Qle_trans; eassumption).
  now apply T.
Qed.

(** X10: the conversion is odd: a sample and its negation are stored as
    opposite integers, so the two extremes are 32767 and -32767 and the
    value -32768 is never written. *)
Theorem encode_sample_odd q :
  encode_sample (Finite (- q)) = - encode_sample (Finite q)
  /\ encode_sample (Finite q) <> -32768.
Proof.
  split.
  - destruct (encode_sample_finite (- q)) as (c & Hc & _ & -> & _).
    destruct (encode_sample_finite q) as (d & Hd & _ & -> & _).
    rewrite <- truncate_opp. apply truncate_comp.
    rewrite Hc, Hd, clampQ_opp. ring.
  - pose proof (encode_sample_range (Finite q)). lia.
Qed.

(** X11: the encoder is total. For every sample sequence and every integer
    sample rate, out of range or negative, it returns, never running into a
    [RangeError], a buffer of [44 + 2N] bytes: the header, whose 32-bit
    fields hold their values modulo [2^32], then the samples, whose bytes do
    not depend on the rate. *)
Theorem encoder_is_total audioData sampleRate :
  exists buffer,
    convertFloat32ArrayToWav audioData sampleRate = Returns buffer
    /\ Z.of_nat (length buffer) = 44 + 2 * Z.of_nat (length audioData)
    /\ getUint32 buffer 4 = (36 + 2 * Z.of_nat (length audioData)) mod 2 ^ 32
    /\ getUint32 buffer 24 = sampleRate mod 2 ^ 32
    /\ getUint32 buffer 28 = (sampleRate * 2) mod 2 ^ 32
    /\ getUint32 buffer 40 = (2 * Z.of_nat (length audioData)) mod 2 ^ 32
    /\ skipn 44 buffer = flat_map sample_bytes audioData.
Proof.
  rewrite convertFloat32ArrayToWav_layout. eexists. split; [reflexivity|].
  destruct (header_fields (Z.of_nat (length audioData)) sampleRate
              (flat_map sample_bytes audioData))
    as (_ & F4 & _ & _ & _ & _ & _ & F24 & F28 & _ & _ & _ & F40).
  unfold ToUint32 in *.
  split.
  { rewrite length_app, flat_map_sample_bytes_length.
    change (length (wav_header (Z.of_nat (length audioData)) sampleRate))
      with 44%nat. lia. }
  split; [rewrite F4; f_equal; lia|].
  split; [exact F24|]. split; [exact F28|].
  split; [rewrite F40; f_equal; lia|].
  apply (skipn_exact (wav_header (Z.of_nat (length audioData)) sampleRate)).
Qed.

(** X12: within the range of the 32-bit fields the header describes the
    buffer it heads: the RIFF chunk size is the byte length less 8, the data
    size is the byte length less 44, the byte rate is the sample rate times
    the block align, and the block align is channels times bits per sample
    over 8. *)
Theorem header_is_consistent audioData sampleRate :
  36 + 2 * Z.of_nat (length audioData) < 2 ^ 32 ->
  0 <= sampleRate ->
  sampleRate * 2 < 2 ^ 32 ->
  exists buffer,
    convertFloat32ArrayToWav audioData sampleRate = Returns buffer
    /\ getUint32 buffer 4 = Z.of_nat (length buffer) - 8
    /\ getUint32 buffer 40 = Z.of_nat (length buffer) - 44
    /\ getUint32 buffer 28 = getUint32 buffer 24 * getUint16 buffer 32
    /\ getUint16 buffer 32 * 8 = getUint16 buffer 22 * getUint16 buffer 34.
Proof.
  intros HN Hlo Hhi.
  rewrite convertFloat32ArrayToWav_layout. eexists. split; [reflexivity|].
  pose proof (Zle_0_nat (length audioData)) as Hpos.
  destruct (header_fields (Z.of_nat (length audioData)) sampleRate
              (flat_map sample_bytes audioData))
    as (_ & F4 & _ & _ & _ & _ & F22 & F24 & F28 & F32 & F34 & _ & F40).
  rewrite F4, F40, F28, F24, F32, F22, F34.
  rewrite length_app, flat_map_sample_bytes_length.
  change (length (wav_header (Z.of_nat (length audioData)) sampleRate))
    with 44%nat.
  unfold ToUint32. rewrite !Z.mod_small by lia.
  repeat split; lia.
Qed.

Lemma header_is_consistent_witness :
  exists buffer,
    convertFloat32ArrayToWav [Finite (1 # 2); NaN] 16000 = Returns buffer
    /\ getUint32 buffer 4 = 40
    /\ getUint32 buffer 40 = 4.
Proof.
  destruct (header_is_consistent [Finite (1 # 2); NaN] 16000)
    as (buffer & Hrun & H4 & H40 & _);
    [reflexivity | discriminate | reflexivity |].
  exists buffer. split; [exact Hrun|].
  rewrite H4, H40.
  rewrite convertFloat32ArrayToWav_layout in Hrun.
  injection Hrun as <-. split; reflexivity.
Defined.

Lemma Qle_bool_false a b : Qle_bool a b = false -> (b < a)%Q.
Proof.
  intros H. apply Qnot_le_lt. intros L. apply Qle_bool_iff in L. congruence.
Qed.

Lemma truncate_toward_zero y :
  ((0 <= y)%Q -> 0 <= truncate y /\ (inject_Z (truncate y) <= y)%Q)
  /\ ((y <= 0)%Q -> truncate y <= 0 /\ (y <= inject_Z (truncate y))%Q)
  /\ (inject_Z (truncate y) - 1 < y)%Q
  /\ (y < inject_Z (truncate y) + 1)%Q.
Proof.
  pose proof (Qfloor_le y) as F1. pose proof (Qlt_floor y) as F2.
  pose proof (Qle_ceiling y) as C1. pose proof (Qceiling_lt y) as C2.
  rewrite inject_Z_plus in F2. unfold Z.sub in C2.
  rewrite inject_Z_plus in C2.
  change (inject_Z 1) with 1%Q in F2.
  change (inject_Z (- (1))) with (- (1))%Q in C2.
  unfold truncate. destruct (Qle_bool 0%Q y) eqn:B.
  - apply Qle_bool_iff in B.
    assert (P : 0 <= Qfloor y)
      by (change 0 with (Qfloor 0%Q); now apply Qfloor_resp_le).
    split; [intros _; now split|].
    split; [|split; lra].
    intros N. assert (E : (y == 0)%Q) by lra.
    rewrite (Qfloor_comp _ _ E). change (Qfloor 0%Q) with 0.
    split; [lia | exact N].
  - apply Qle_bool_false in B.
    assert (P : Qceiling y <= 0).
    { change 0 with (Qceiling 0%Q). apply Qceiling_resp_le. lra. }
    split; [intros N; lra|].
    split; [intros _; now split | split; lra].
Qed.

Lemma clampQ_cases q :
  ((0 <= q)%Q -> (0 <= clampQ q)%Q /\ (clampQ q <= q)%Q)
  /\ ((q <= 0)%Q -> (q <= clampQ q)%Q /\ (clampQ q <= 0)%Q)
  /\ ((-1 <= q)%Q -> (q <= 1)%Q -> (clampQ q == q)%Q).
Proof.
  unfold clampQ.
  destruct (Qle_bool q (-1)%Q) eqn:A;
    [apply Qle_bool_iff in A | apply Qle_bool_false in A];
    [|destruct (Qle_bool 1%Q q) eqn:B;
      [apply Qle_bool_iff in B | apply Qle_bool_false in B]];
    repeat split; intros; lra.
Qed.

(** X25: the conversion rounds toward zero and never amplifies: the stored
    integer has the sign of the sample and a magnitude of at most 32767
    times the sample's, and for a sample of [-1, 1] it is less than one unit
    away from 32767 times the sample. *)
Theorem encode_sample_rounds_toward_zero q :
  ((0 <= q)%Q ->
   0 <= encode_sample (Finite q)
   /\ (inject_Z (encode_sample (Finite q)) <= q * 32767)%Q)
  /\ ((q <= 0)%Q ->
      encode_sample (Finite q) <= 0
      /\ (q * 32767 <= inject_Z (encode_sample (Finite q)))%Q)
  /\ ((-1 <= q)%Q -> (q <= 1)%Q ->
      (q * 32767 - 1 < inject_Z (encode_sample (Finite q)))%Q
      /\ (inject_Z (encode_sample (Finite q)) < q * 32767 + 1)%Q).
Proof.
  destruct (encode_sample_finite q) as (c & Hc & _ & -> & _).
  change (inject_Z 32767) with 32767%Q.
  destruct (clampQ_cases q) as (Cpos & Cneg & Cid).
  destruct (truncate_toward_zero (c * 32767)) as (Tpos & Tneg & Tlo & Thi).
  split; [|split].
  - intros H. destruct (Cpos H) as [P1 P2].
    assert (A1 : (0 <= c)%Q) by (rewrite Hc; exact P1).
    assert (A2 : (c <= q)%Q) by (rewrite Hc; exact P2).
    destruct Tpos as [T1 T2]; [lra|]. split; [exact T1 | lra].
  - intros H. destruct (Cneg H) as [P1 P2].
    assert (A1 : (q <= c)%Q) by (rewrite Hc; exact P1).
    assert (A2 : (c <= 0)%Q) by (rewrite Hc; exact P2).
    destruct Tneg as [T1 T2]; [lra|]. split; [exact T1 | lra].
  - intros Hlo Hhi.
    assert (E : (c == q)%Q) by (rewrite Hc; now apply Cid).
    split; lra.
Qed.

End WavMoreFacts.

(** * Facts about [getInstance], [init], [listen] and [speak] *)

Module VoiceFacts.
Import Voice.
Local Open Scope string_scope.
Local Open Scope list_scope.

Ltac run_step :=
  cbv beta iota zeta;
  match goal with
  | |- context [match ?x with Done _ => _ | Raised _ => _ end] =>
      let E := fresh "E" in destruct x eqn:E
  | |- context [if ok ?r then _ else _] =>
      let E := fresh "E" in destruct (ok r) eqn:E
  | |- context [match ?x with Some _ => _ | None => _ end] =>
      let E := fresh "E" in destruct x eqn:E
  end.

Ltac close_trace :=
  rewrite <- ?app_assoc; cbn [app];
  do 2 eexists; split; [reflexivity|];
  unfold count;
  cbn [filter is_pipeline is_tokenizer is_speak is_synthesize List.length
       brain set_llm set_asr set_tts Core.useCloudAPI Core.currentMode
       Core.cloudAPI];
  repeat split.

Lemma init_profile lib this h :
  exists this' new,
    init lib this h = (Done this', h ++ new)
    /\ count is_pipeline new = 2%nat
    /\ count is_tokenizer new = 1%nat
    /\ Core.useCloudAPI (brain this') = Core.useCloudAPI (brain this)
    /\ Core.currentMode (brain this') = Core.currentMode (brain this)
    /\ Core.cloudAPI (brain this') = Core.cloudAPI (brain this).
Proof.
  unfold init, console, try_catch. unfold bind, ask, ret.
  repeat run_step; close_trace.
Qed.

(** X13: [init] never rejects, whichever of the models fail to load: each
    failure is caught on the spot and the next model is still requested. It
    asks for the two named pipelines and the tokenizer once each, and
    leaves the selection, the mode and the collaborator as they were. *)
Theorem init_never_rejects lib this h :
  exists this' new,
    init lib this h = (Done this', h ++ new)
    /\ count is_pipeline new = 2%nat
    /\ count is_tokenizer new = 1%nat
    /\ Core.useCloudAPI (brain this') = Core.useCloudAPI (brain this)
    /\ Core.currentMode (brain this') = Core.currentMode (brain this)
    /\ Core.cloudAPI (brain this') = Core.cloudAPI (brain this).
Proof. apply init_profile. Qed.

Ltac contradict_load :=
  exfalso;
  repeat match goal with
         | E : tokenizer_from_pretrained _ ?t = Done _,
           K : forall h, exists e, tokenizer_from_pretrained _ h = Raised e
           |- _ => destruct (K t) as [? ?]; congruence
         | E : model_from_pretrained _ ?t = Done _,
           K : forall h, exists e, model_from_pretrained _ h = Raised e
           |- _ => destruct (K t) as [? ?]; congruence
         | E : asr_pipeline _ ?t ?m ?k = Done _,
           K : forall h m k, exists e, asr_pipeline _ h m k = Raised e
           |- _ => destruct (K t m k) as [? ?]; congruence
         | E : text2text_pipeline _ ?t = Done _,
           K : forall h, exists e, text2text_pipeline _ h = Raised e
           |- _ => destruct (K t) as [? ?]; congruence
         end.

(** X14: if the tokenizer, the speech model or the recognition pipeline
    fails to load, [init] still completes, and from then on [listen] rejects
    every input with the message that the recognition model is not
    initialized, without calling anything. *)
Theorem asr_load_failure_disables_listen lib this h :
  (forall h, exists e, tokenizer_from_pretrained lib h = Raised e)
  \/ (forall h, exists e, model_from_pretrained lib h = Raised e)
  \/ (forall h model tokenizer,
         exists e, asr_pipeline lib h model tokenizer = Raised e) ->
  exists this' h',
    init lib this h = (Done this', h')
    /\ forall audioData h2,
         listen this' audioData h2
         = (Raised (JsError "Speech recognition model not initialized"), h2).
Proof.
  intros H.
  unfold init, console, try_catch. unfold bind, ask, ret.
  repeat run_step;
    (do 2 eexists; split; [reflexivity|]);
    first [ intros; reflexivity
          | destruct H as [H|[H|H]]; contradict_load ].
Qed.

Lemma asr_load_failure_disables_listen_witness :
  exists this' h',
    init VoiceScenarios.text_only_library
      (new_BellaAI Scenarios.unconfigured_cloud) [] = (Done this', h')
    /\ listen this' [Wav.Finite 0] h'
       = (Raised (JsError "Speech recognition model not initialized"), h').
Proof.
  destruct (asr_load_failure_disables_listen VoiceScenarios.text_only_library
              (new_BellaAI Scenarios.unconfigured_cloud) [])
    as (this' & h' & Hinit & Hlisten).
  - left. intros h. now exists VoiceScenarios.not_found.
  - exists this', h'. split; [exact Hinit | apply Hlisten].
Defined.

(** X15: if the text model fails to load, [getInstance] still hands out an
    instance, and [think] on it answers every utterance with the
    placeholder, without a call and without a random draw. *)
Theorem llm_load_failure_gives_placeholder lib cloud h :
  (forall h, exists e, text2text_pipeline lib h = Raised e) ->
  exists this h',
    getInstance lib cloud None h = (Done (this, Some this), h')
    /\ forall Math_random utterance hc,
         Core.think Math_random (brain this) utterance hc
         = (Returns (Core.VString Core.placeholder), hc).
Proof.
  intros H.
  unfold getInstance, init, console, try_catch. unfold bind, ask, ret.
  repeat run_step;
    (do 2 eexists; split; [reflexivity|]);
    first [ intros; reflexivity | contradict_load ].
Qed.

Lemma llm_load_failure_gives_placeholder_witness :
  exists this h',
    getInstance VoiceScenarios.empty_library Scenarios.silent_cloud None []
    = (Done (this, Some this), h')
    /\ Core.think Scenarios.half (brain this) "hello" []
       = (Returns (Core.VString Core.placeholder), []).
Proof.
  destruct (llm_load_failure_gives_placeholder VoiceScenarios.empty_library
              Scenarios.silent_cloud [])
    as (this & h' & Hget & Hthink).
  - intros h. now exists VoiceScenarios.not_found.
  - exists this, h'. split; [exact Hget | apply Hthink].
Defined.

(** X16: [getInstance] builds the instance once. The first call constructs
    and initializes it and never rejects; the instance starts with local
    selected and the casual mode. Every later call returns that same
    instance and loads nothing, whatever the library would now answer. *)
Theorem getInstance_is_a_singleton lib cloud h :
  exists this new,
    getInstance lib cloud None h = (Done (this, Some this), h ++ new)
    /\ (forall lib' cloud' h',
           getInstance lib' cloud' (Some this) h'
           = (Done (this, Some this), h'))
    /\ Core.useCloudAPI (brain this) = false
    /\ Core.currentMode (brain this) = "casual"
    /\ Core.cloudAPI (brain this) = cloud.
Proof.
  destruct (init_profile lib (new_BellaAI cloud) h)
    as (this & new & Hinit & _ & _ & Hu & Hm & Hc).
  exists this, new. unfold getInstance. unfold bind at 1. rewrite Hinit.
  repeat split; assumption.
Qed.

(** ** [speak] *)

(** Either the model's audio is handed back, or the browser's voice is
    tried from some later trace [hf]; nothing else happens. *)
Lemma speak_cases browser this text h :
  (exists samples synthesizer pre bytes new,
      tts this = Some synthesizer
      /\ synthesizer pre text bytes = Done (Some {| audio := Some samples |})
      /\ speak browser this text h = (Fulfilled (Samples samples), h ++ new)
      /\ count is_speak new = 0%nat
      /\ count is_synthesize new = 1%nat)
  \/ (exists new,
         count is_speak new = 0%nat
         /\ (count is_synthesize new <= 1)%nat
         /\ (tts this = None -> new = [spoken])
         /\ speak browser this text h
            = match speechSynthesis browser with
              | Some fire =>
                  (settle (fire (h ++ new) text),
                   h ++ new ++ EvSpeak text
                     :: map handler_message (fire (h ++ new) text))
              | None => (Rejected (JsError "TTS is not available"), h ++ new)
              end).
Proof.
  unfold speak, speechT5, console, try_catch. unfold bind, ask, ret, throw.
  destruct (tts this) as [synthesizer|] eqn:T.
  - repeat run_step;
      try match goal with
          | s : SpeechOutput |- _ => destruct s as [[samples|]]
          end;
      cbv beta iota;
      rewrite <- ?app_assoc; cbn [app];
      first
        [ left; do 5 eexists;
          split; [reflexivity|];
          split; [eassumption|];
          split; [reflexivity|]; split; reflexivity
        | right;
          match goal with
          | |- context [settle (_ (h ++ ?x) text)] => exists x
          | |- context [(Rejected _, h ++ ?x)] => exists x
          end;
          split; [reflexivity|]; split; [cbn; lia|];
          split; [discriminate | reflexivity] ].
  - right. exists [spoken]. cbv beta iota zeta.
    split; [reflexivity|]. split; [cbn; lia|]. split; [reflexivity|].
    destruct (speechSynthesis browser); rewrite <- ?app_assoc; reflexivity.
Qed.

(** The promise is settled by the first event that is not [OnEnd]. *)
Lemma settle_spec events :
  match settle events with
  | Fulfilled v =>
      v = PlaybackStarted
      /\ exists pre post,
           events = pre ++ OnStart :: post /\ forallb is_end pre = true
  | Rejected e =>
      exists pre post,
        events = pre ++ OnError e :: post /\ forallb is_end pre = true
  | Pending => forallb is_end events = true
  end.
Proof.
  induction events as [|ev rest IH]; [reflexivity|].
  destruct ev as [| |error]; cbn [settle].
  - split; [reflexivity|]. now exists [], rest.
  - destruct (settle rest) as [v|e|].
    + destruct IH as (-> & pre & post & -> & Hpre).
      split; [reflexivity|]. now exists (OnEnd :: pre), post.
    + destruct IH as (pre & post & -> & Hpre).
      now exists (OnEnd :: pre), post.
    + exact IH.
  - now exists [], rest.
Qed.

(** X17: a failure of the SpeechT5 path never reaches the caller of
    [speak]: a rejection is either the fixed message that TTS is not
    available, in a browser without [speechSynthesis], or the first error the
    browser's voice fired, before any start. *)
Theorem speak_rejection_reasons browser this text h e h' :
  speak browser this text h = (Rejected e, h') ->
  (speechSynthesis browser = None /\ e = JsError "TTS is not available")
  \/ (exists fire at_trace pre post,
         speechSynthesis browser = Some fire
         /\ fire at_trace text = pre ++ OnError e :: post
         /\ forallb is_end pre = true).
Proof.
  intros H.
  destruct (speak_cases browser this text h)
    as [(samples & synthesizer & p & bytes & new & _ & _ & Hrun & _)
       |(new & _ & _ & _ & Hrun)]; rewrite Hrun in H.
  - discriminate H.
  - destruct (speechSynthesis browser) as [fire|].
    + right. injection H as Hs _.
      pose proof (settle_spec (fire (h ++ new) text)) as S.
      rewrite Hs in S. destruct S as (pre & post & Hev & Hpre).
      now exists fire, (h ++ new), pre, post.
    + left. injection H as <- _. now split.
Qed.

Lemma speak_rejection_reasons_witness :
  fst (speak VoiceScenarios.failing_browser
         (VoiceScenarios.voice (Some VoiceScenarios.beep_synthesizer))
         "hi" [])
  = Rejected (JsError "synthesis-failed")
  /\ exists fire at_trace pre post,
       speechSynthesis VoiceScenarios.failing_browser = Some fire
       /\ fire at_trace "hi" = pre ++ OnError (JsError "synthesis-failed") :: post
       /\ forallb is_end pre = true.
Proof.
  assert (R : speak VoiceScenarios.failing_browser
                (VoiceScenarios.voice (Some VoiceScenarios.beep_synthesizer))
                "hi" []
              = (Rejected (JsError "synthesis-failed"),
                 snd (speak VoiceScenarios.failing_browser
                        (VoiceScenarios.voice
                           (Some VoiceScenarios.beep_synthesizer))
                        "hi" []))) by reflexivity.
  split; [reflexivity|].
  destruct (speak_rejection_reasons _ _ _ _ _ _ R) as [[N _]|W].
  - discriminate N.
  - exact W.
Defined.

(** X18: when [speak] resolves to samples, they are the audio the loaded
    synthesizer answered for that text, and the browser's voice was not
    used; the synthesizer was called once. *)
Theorem speak_samples_come_from_model browser this text h samples h' :
  speak browser this text h = (Fulfilled (Samples samples), h') ->
  exists synthesizer at_trace embeddings new,
    tts this = Some synthesizer
    /\ synthesizer at_trace text embeddings
       = Done (Some {| audio := Some samples |})
    /\ h' = h ++ new
    /\ count is_speak new = 0%nat
    /\ count is_synthesize new = 1%nat.
Proof.
  intros H.
  destruct (speak_cases browser this text h)
    as [(s0 & synthesizer & p & bytes & new & T & Hs & Hrun & C1 & C2)
       |(new & _ & _ & _ & Hrun)]; rewrite Hrun in H.
  - injection H as <- <-. now exists synthesizer, p, bytes, new.
  - destruct (speechSynthesis browser) as [fire|]; [|discriminate H].
    injection H as Hs _.
    pose proof (settle_spec (fire (h ++ new) text)) as S.
    rewrite Hs in S. destruct S as [S _]. discriminate S.
Qed.

Lemma speak_samples_come_from_model_witness :
  fst (speak VoiceScenarios.silent_browser
         (VoiceScenarios.voice (Some VoiceScenarios.beep_synthesizer))
         "hi" [])
  = Fulfilled (Samples VoiceScenarios.beep)
  /\ exists (synthesizer : Synthesizer) at_trace embeddings,
       synthesizer at_trace "hi" embeddings
       = Done (Some {| audio := Some VoiceScenarios.beep |}).
Proof.
  split; [reflexivity|].
  destruct (speak_samples_come_from_model VoiceScenarios.silent_browser
              (VoiceScenarios.voice (Some VoiceScenarios.beep_synthesizer))
              "hi" [] VoiceScenarios.beep _ eq_refl)
    as (synthesizer & at_trace & embeddings & new & _ & Hs & _).
  now exists synthesizer, at_trace, embeddings.
Defined.

(** X19: without a loaded synthesizer [speak] hands the text to the
    browser's voice at once, and the promise follows the first event that is
    not an end: [true] if it is a start, even when an error follows; a
    rejection if it is an error; and no settlement at all if neither is ever
    fired. *)
Theorem speak_follows_first_voice_event browser this text h fire :
  tts this = None ->
  speechSynthesis browser = Some fire ->
  snd (speak browser this text h)
  = h ++ spoken :: EvSpeak text
        :: map handler_message (fire (h ++ [spoken]) text)
  /\ match fst (speak browser this text h) with
     | Fulfilled v =>
         v = PlaybackStarted
         /\ exists pre post,
              fire (h ++ [spoken]) text = pre ++ OnStart :: post
              /\ forallb is_end pre = true
     | Rejected e =>
         exists pre post,
           fire (h ++ [spoken]) text = pre ++ OnError e :: post
           /\ forallb is_end pre = true
     | Pending => forallb is_end (fire (h ++ [spoken]) text) = true
     end.
Proof.
  intros T F.
  destruct (speak_cases browser this text h)
    as [(s0 & synthesizer & p & bytes & new & T' & _)
       |(new & _ & _ & Hnew & Hrun)]; [congruence|].
  rewrite (Hnew T) in Hrun. rewrite F in Hrun. rewrite Hrun.
  cbn [fst snd app]. split; [reflexivity|].
  apply settle_spec.
Qed.

Lemma speak_follows_first_voice_event_witness :
  fst (speak VoiceScenarios.interrupted_browser (VoiceScenarios.voice None)
         "hi" [])
  = Fulfilled PlaybackStarted.
Proof.
  pose proof (speak_follows_first_voice_event
                VoiceScenarios.interrupted_browser (VoiceScenarios.voice None)
                "hi" [] _ eq_refl eq_refl) as [_ H].
  destruct (fst (speak VoiceScenarios.interrupted_browser
                   (VoiceScenarios.voice None) "hi" [])) as [v|e|] eqn:E.
  - now destruct H as [-> _].
  - discriminate E.
  - discriminate E.
Defined.

End VoiceFacts.

(** * Facts about the page script *)

Module PageFacts.
Import JSString JSStringFacts Page.
Local Open Scope string_scope.
Local Open Scope list_scope.

(** ** The recognition handler *)

Lemma append_assoc (a b c : string) : ((a ++ b) ++ c = a ++ (b ++ c))%string.
Proof. induction a as [|x a IH]; cbn; [reflexivity | now rewrite IH]. Qed.

Lemma append_nil_r (a : string) : (a ++ EmptyString)%string = a.
Proof. induction a as [|x a IH]; cbn; [reflexivity | now rewrite IH]. Qed.

Lemma collect_joined results : forall final interim,
  collect results final interim
  = ((final ++ joined (filter isFinal results))%string,
     (interim ++ joined (filter (fun r => negb (isFinal r)) results))%string).
Proof.
  induction results as [|r rest IH]; intros final interim; cbn [collect filter].
  - unfold joined. cbn. now rewrite !append_nil_r.
  - destruct (isFinal r); cbn [negb]; rewrite IH; unfold joined;
      cbn [map fold_right]; now rewrite append_assoc.
Qed.

Lemma joined_empty results :
  joined results = EmptyString
  <-> forall r, In r results -> transcript r = EmptyString.
Proof.
  unfold joined. induction results as [|r rest IH]; cbn [map fold_right].
  - split; [intros _ r [] | reflexivity].
  - split.
    + intros H r' [<-|Hin].
      * destruct (transcript r); [reflexivity | discriminate H].
      * apply IH; [|exact Hin].
        destruct (transcript r); [exact H | discriminate H].
    + intros H. rewrite (H r (or_introl eq_refl)). cbn.
      apply IH. intros r' Hin. apply H. now right.
Qed.

(** X20: the loop of the handler joins, in order, the transcripts of the
    final results into [final_transcript] and those of the others into
    [interim_transcript], from [event.resultIndex] on; the results before
    that index have no influence. *)
Theorem transcripts_join_results_from_index resultIndex results earlier :
  transcripts resultIndex results
  = (joined (filter isFinal (skipn resultIndex results)),
     joined (filter (fun r => negb (isFinal r)) (skipn resultIndex results)))
  /\ transcripts (List.length earlier + resultIndex) (earlier ++ results)
     = transcripts resultIndex results.
Proof.
  split.
  - unfold transcripts. now rewrite collect_joined.
  - unfold transcripts. f_equal.
    induction earlier as [|r earlier IH]; [reflexivity | exact IH].
Qed.

(** X21: the handler gets to [think] exactly when [bellaAI] is set and some
    final result from [resultIndex] on has a non-empty transcript. The
    utterance is the trimmed final transcript, so final transcripts of white
    space alone reach [think] as the empty string. *)
Theorem userText_reaches_think resultIndex results bellaAI :
  (userText (fst (transcripts resultIndex results)) bellaAI = None
   <-> bellaAI = false
       \/ forall r, In r (skipn resultIndex results) ->
                    isFinal r = true -> transcript r = EmptyString)
  /\ (forall u,
         userText (fst (transcripts resultIndex results)) bellaAI = Some u ->
         u = trim (joined (filter isFinal (skipn resultIndex results)))
         /\ (u = EmptyString
             <-> whitespace_only
                   (joined (filter isFinal (skipn resultIndex results)))
                 = true)).
Proof.
  unfold transcripts. rewrite collect_joined. cbn [fst append].
  set (final := joined (filter isFinal (skipn resultIndex results))).
  assert (E : final = EmptyString
              <-> forall r, In r (skipn resultIndex results) ->
                            isFinal r = true -> transcript r = EmptyString).
  { unfold final. rewrite joined_empty. split.
    - intros H r Hin Hf. apply H. apply filter_In. now split.
    - intros H r Hin. apply filter_In in Hin as [Hin Hf]. now apply H. }
  unfold userText. split.
  - destruct (String.eqb_spec final EmptyString) as [Z|NZ]; cbn [negb andb].
    + split; [intros _; right; now apply E | reflexivity].
    + destruct bellaAI.
      * split; [discriminate|]. intros [F|A]; [discriminate F|].
        now apply E in A.
      * split; [now left | reflexivity].
  - intros u H.
    destruct (negb (String.eqb final EmptyString) && bellaAI);
      [|discriminate H].
    injection H as <-. split; [reflexivity | apply trim_empty_iff].
Qed.

(** ** The playback of a reply *)

(** X22: whatever [speak] resolved to, the page either plays a WAV made of
    at least one sample, whose header says one channel, 16 bits, 16000 Hz
    and 32000 bytes per second, or it plays nothing: [true] means that the
    browser's voice has spoken, and an empty sample array is reported as an
    unknown format. The conversion never fails. *)
Theorem playback_cases audioData :
  match playback audioData with
  | PlayWav wavBuffer =>
      exists samples,
        audioData = Voice.Samples samples
        /\ samples <> []
        /\ List.length wavBuffer = (44 + 2 * List.length samples)%nat
        /\ Wav.getUint16 wavBuffer 22 = 1%Z
        /\ Wav.getUint32 wavBuffer 24 = 16000%Z
        /\ Wav.getUint32 wavBuffer 28 = 32000%Z
        /\ Wav.getUint16 wavBuffer 34 = 16%Z
        /\ skipn 44 wavBuffer = flat_map Wav.sample_bytes samples
  | WebSpeechUsed => audioData = Voice.PlaybackStarted
  | UnknownFormat => audioData = Voice.Samples []
  | TtsError _ => False
  end.
Proof.
  destruct audioData as [samples|]; [|reflexivity].
  unfold playback. rewrite WavFacts.convertFloat32ArrayToWav_layout.
  destruct samples as [|x rest]; [reflexivity|].
  change (0 <? List.length (x :: rest))%nat with true. cbv iota.
  destruct (WavFacts.header_fields
              (Z.of_nat (List.length (x :: rest))) 16000
              (flat_map Wav.sample_bytes (x :: rest)))
    as (_ & _ & _ & _ & _ & _ & F22 & F24 & F28 & _ & F34 & _).
  exists (x :: rest). split; [reflexivity|]. split; [discriminate|].
  split.
  { rewrite length_app, WavFacts.flat_map_sample_bytes_length.
    change (List.length
              (Wav.wav_header (Z.of_nat (List.length (x :: rest))) 16000))
      with 44%nat. lia. }
  split; [exact F22|]. split; [exact F24|]. split; [exact F28|].
  split; [exact F34|].
  apply (WavFacts.skipn_exact
           (Wav.wav_header (Z.of_nat (List.length (x :: rest))) 16000)).
Qed.

(** ** The next video *)




(** ** The microphone button *)

Lemma clicks_from supported n : forall s,
  supported = true ->
  clicks supported n s
  = (if Nat.even n then fst s else negb (fst s),
     snd s ++ map (fun k => if xorb (fst s) (Nat.even k) then Start else Stop)
                (seq 0 n)).
Proof.
  induction n as [|n IH]; intros s ->.
  - cbn. now rewrite app_nil_r, <- surjective_pairing.
  - cbn [clicks]. rewrite IH by reflexivity. unfold click. cbn [fst snd].
    rewrite Nat.even_succ, <- Nat.negb_even.
    f_equal.
    + destruct (Nat.even n); [reflexivity | apply negb_involutive].
    + rewrite <- app_assoc. f_equal. cbn [seq map app Nat.even].
      f_equal; try (now destruct (fst s)).
      rewrite <- seq_shift, map_map. apply map_ext. intros k.
      rewrite Nat.even_succ, <- Nat.negb_even.
      now destruct (fst s), (Nat.even k).
Qed.

(** X24: from the initial state, the clicks on the microphone button start
    and stop recognition in turn, beginning with a start: the [k]-th click
    starts it when [k] is odd and stops it when [k] is even, so it is never
    started twice in a row, and [isListening] is true exactly after an odd
    number of clicks. Without [SpeechRecognition] a click does nothing. *)
Theorem clicks_alternate n :
  clicks true n (false, [])
  = (Nat.odd n, map call_of_click (seq 0 n))
  /\ clicks false n (false, []) = (false, []).
Proof.
  split.
  - rewrite clicks_from by reflexivity. cbn [fst snd app xorb].
    rewrite <- Nat.negb_even. f_equal; now destruct (Nat.even n).
  - induction n as [|n IH]; [reflexivity | exact IH].
Qed.

End PageFacts.
